(** * mQTL matching tool: a shallow embedding of the analysis pipeline

    The Python sources modelled here are

    - [GenesInRegion.py]  (class [GenesInRegion], method [genes_in_region]),
    - [QTL.py]            ([find_local_maxima], [Study.get_peak],
                           [Study.get_peak_local_max]),
    - [Pathways.py]       ([get_kegg_pathways] and the round loop of the
                           script body),
    - [GenesInPath.py]    ([get_response], [get_genes_for_pathways]),
    - [GetEnzymesForGene.py] ([get_enzymes_for_gene]),
    - [main.py]           (the statistical test).

    Python values are modelled by the closest Rocq data: [str] by [string]
    (a sequence of bytes, read as ASCII), [int] by [Z], a LOD score by a
    rational [Q] (only [abs] and order comparisons are applied to scores),
    [dict] by [gmap], [set] by [gset], exceptions by the [Raise] constructor
    of [result].  The first half of the file holds the definitions, the
    second half the statements proved about them. *)

From Stdlib Require Import ZArith QArith Qabs Qround String Ascii List Bool.
From Stdlib Require Import Lia Lqa Sorted.
From Stdlib Require Import DecimalString.
From stdpp Require Import base option list gmap strings sets.

Local Open Scope string_scope.

(* ===================================================================== *)
(** * Part I: definitions                                                 *)
(* ===================================================================== *)

(** ** Python primitives used by the sources *)
Module Py.

(** The exceptions the modelled code can raise. *)
Inductive exn : Type :=
| TypeError
| ValueError
| IndexError
| ReError.

(** A computation that returns a value or raises. *)
Inductive result (A : Type) : Type :=
| Ok (a : A)
| Raise (e : exn).
Arguments Ok {A} a.
Arguments Raise {A} e.

Definition bind {A B} (r : result A) (k : A → result B) : result B :=
  match r with
  | Ok a => k a
  | Raise e => Raise e
  end.

Definition is_ok {A} (r : result A) : bool :=
  match r with Ok _ => true | Raise _ => false end.

(** [seq[i]] on a list: [IndexError] when out of range. *)
Definition index {A} (l : list A) (i : nat) : result A :=
  match l !! i with
  | Some a => Ok a
  | None => Raise IndexError
  end.

Definition tab : ascii := "009"%char.
Definition newline : ascii := "010"%char.
Definition dquote : ascii := "034"%char.

(** [str.isspace] on the ASCII range: TAB..CR, FS..US and the blank. *)
Definition isspace (c : ascii) : bool :=
  let n := nat_of_ascii c in
  ((9 <=? n) && (n <=? 13) || (28 <=? n) && (n <=? 32))%nat.

Fixpoint lstrip_by (p : ascii → bool) (s : string) : string :=
  match s with
  | EmptyString => EmptyString
  | String c s' => if p c then lstrip_by p s' else s
  end.

Fixpoint rstrip_by (p : ascii → bool) (s : string) : string :=
  match s with
  | EmptyString => EmptyString
  | String c s' =>
      match rstrip_by p s' with
      | EmptyString => if p c then EmptyString else String c EmptyString
      | r => String c r
      end
  end.

(** [s.strip()] *)
Definition strip (s : string) : string :=
  rstrip_by isspace (lstrip_by isspace s).

(** [s.strip(c)] for a one-character argument *)
Definition strip_char (c : ascii) (s : string) : string :=
  rstrip_by (Ascii.eqb c) (lstrip_by (Ascii.eqb c) s).

(** [s.split(sep)] for a one-character separator: never empty, keeps
    empty fields. *)
Fixpoint split (sep : ascii) (s : string) : list string :=
  match s with
  | EmptyString => [EmptyString]
  | String c s' =>
      if Ascii.eqb c sep then EmptyString :: split sep s'
      else match split sep s' with
           | h :: t => String c h :: t
           | [] => [String c EmptyString]
           end
  end.

(** [s.startswith(p)] *)
Definition startswith (p s : string) : bool := String.prefix p s.

(** [c in s] for a one-character [c] *)
Fixpoint contains_char (c : ascii) (s : string) : bool :=
  match s with
  | EmptyString => false
  | String d s' => Ascii.eqb c d || contains_char c s'
  end.

(** [s[n:]] *)
Fixpoint slice_from (n : nat) (s : string) : string :=
  match n, s with
  | O, _ => s
  | S n', String _ s' => slice_from n' s'
  | S _, EmptyString => EmptyString
  end.

(** [l[-1]] *)
Definition last_item {A} (l : list A) : result A :=
  match last l with
  | Some a => Ok a
  | None => Raise IndexError
  end.

Definition digit_value (c : ascii) : option Z :=
  let n := nat_of_ascii c in
  if ((48 <=? n) && (n <=? 57))%nat then Some (Z.of_nat (n - 48)) else None.

(** The digits of an [int] literal, most significant first: single
    underscores are allowed between digits, [prev] tells whether the
    previous character was a digit. *)
Fixpoint int_digits (prev : bool) (acc : Z) (s : string) : option Z :=
  match s with
  | EmptyString => if prev then Some acc else None
  | String c s' =>
      match digit_value c with
      | Some d => int_digits true (10 * acc + d)%Z s'
      | None =>
          if Ascii.eqb c "_" && prev then int_digits false acc s' else None
      end
  end.

(** [int(s)] for a string argument, base ten: surrounding white space,
    an optional sign, digits. *)
Definition int (s : string) : result Z :=
  let body := strip s in
  let parsed :=
    match body with
    | String "-" r => Z.opp <$> int_digits false 0 r
    | String "+" r => int_digits false 0 r
    | _ => int_digits false 0 body
    end in
  match parsed with
  | Some z => Ok z
  | None => Raise ValueError
  end.

(** [str(n)] / [f'{n}'] for an integer *)
Definition str_of_int (z : Z) : string :=
  NilEmpty.string_of_int (Z.to_int z).

End Py.

Import Py.

#[export] Instance result_bind : MBind Py.result :=
  λ A B k r, Py.bind r k.
#[export] Instance result_ret : MRet Py.result := @Py.Ok.

(** Unfolds the sequencing of [result] computations. *)
Ltac unfold_result :=
  unfold mbind, mret, result_bind, result_ret, Py.bind in *.

(** ** GenesInRegion.py *)
Module GenesInRegion.

(** One entry of the list [genes_in_range]. *)
Record gene_info : Type := mk_gene_info {
  gene_id : string;
  gene_name : option string;
  chr : string;
  start : Z;
  end_ : Z
}.

(** The object state: [self.GFF_file], the rows read so far. *)
Record t : Type := mk { GFF_file : list (list string) }.

(** [GenesInRegion()] *)
Definition init : t := {| GFF_file := [] |}.

(** The longest prefix of [s] whose characters satisfy [p], and the
    rest. *)
Fixpoint span (p : ascii → bool) (s : string) : string * string :=
  match s with
  | EmptyString => (EmptyString, EmptyString)
  | String c s' =>
      if p c then let '(a, b) := span p s' in (String c a, b)
      else (EmptyString, s)
  end.

Definition not_eq_semi (c : ascii) : bool :=
  negb (Ascii.eqb c "=") && negb (Ascii.eqb c ";").
Definition not_semi (c : ascii) : bool := negb (Ascii.eqb c ";").
Definition not_dquote (c : ascii) : bool := negb (Ascii.eqb c dquote).

Definition is_empty (s : string) : bool :=
  match s with EmptyString => true | _ => false end.

(** The second alternative of group 2, [[^;]+]. *)
Definition match_plain (key after_eq : string)
  : option (string * string * string) :=
  let '(v, rest) := span not_semi after_eq in
  if is_empty v then None else Some (key, v, rest).

(** One attempt of [attribute_pattern] anchored at the head of [s]: a
    key (one or more characters other than = and ;), the = sign, and a
    value that is either a quoted run (quote, one or more characters
    other than the quote, quote) or a plain run (one or more characters
    other than ;).  The result holds the two groups and the unread rest.
    Every class is greedy and is followed by a character outside the
    class, so the longest run is the only candidate of the backtracking
    search. *)
Definition match_at (s : string) : option (string * string * string) :=
  let '(key, r1) := span not_eq_semi s in
  if is_empty key then None
  else match r1 with
       | String "=" r2 =>
           match r2 with
           | String q r3 =>
               if Ascii.eqb q dquote then
                 let '(body, r4) := span not_dquote r3 in
                 match r4 with
                 | String q' r5 =>
                     if negb (is_empty body) && Ascii.eqb q' dquote
                     then Some (key,
                                String dquote (body +:+ String dquote ""),
                                r5)
                     else match_plain key r2
                 | EmptyString => match_plain key r2
                 end
               else match_plain key r2
           | EmptyString => None
           end
       | _ => None
       end.

(** [attribute_pattern.finditer(s)]: the matches from left to right;
    after a failed attempt the scan moves one character on.  The fuel
    bounds the number of attempts and is the length of the text. *)
Fixpoint finditer_fuel (fuel : nat) (s : string) : list (string * string) :=
  match fuel with
  | O => []
  | S fuel' =>
      match s with
      | EmptyString => []
      | String _ s' =>
          match match_at s with
          | Some (k, v, rest) => (k, v) :: finditer_fuel fuel' rest
          | None => finditer_fuel fuel' s'
          end
      end
  end.

Definition finditer (s : string) : list (string * string) :=
  finditer_fuel (String.length s) s.

(** The dict comprehension over [finditer(attributes)] that maps group
    1 to group 2 stripped of surrounding quotes: a later match
    overwrites an earlier one with the same key. *)
Definition attr_dict_of (attributes : string) : gmap string string :=
  foldl (λ d kv, <[kv.1 := strip_char dquote kv.2]> d) ∅
        (finditer attributes).

(** ['ath:' + attr_dict.get('ID')]: concatenating [None] raises. *)
Definition concat_opt (prefix : string) (o : option string) : result string :=
  match o with
  | Some s => Ok (prefix +:+ s)
  | None => Raise TypeError
  end.

(** [a <= x <= b] *)
Definition between (a x b : Z) : bool := ((a <=? x) && (x <=? b))%Z.

Definition nth_str (columns : list string) (i : nat) : string :=
  default "" (columns !! i).

(** The guard of both loops:
    [len(columns) > 2 and columns[2] == 'gene' and columns[0] == chromosome] *)
Definition is_gene_row (chromosome : string) (columns : list string) : bool :=
  (2 <? length columns)%nat
  && String.eqb (nth_str columns 2) "gene"
  && String.eqb (nth_str columns 0) chromosome.

(** Lines 35-58: the body of the loop over the lines of the file. *)
Definition scan_row_reading (chromosome : string)
    (start_position end_position : Z)
    (columns : list string) (genes_in_range : list gene_info)
  : result (list gene_info) :=
  if is_gene_row chromosome columns then
    c3 ← index columns 3;
    start ← int c3;
    c4 ← index columns 4;
    end_ ← int c4;
    if between start_position start end_position
       || between start_position end_ end_position
    then
      attributes ← index columns 8;
      let attr_dict := attr_dict_of attributes in
      gene_id ← concat_opt "ath:" (attr_dict !! "ID");
      let gene_name := attr_dict !! "Name" in
      Ok (genes_in_range ++
          [{| gene_id := gene_id; gene_name := gene_name;
              chr := nth_str columns 0; start := start; end_ := end_ |}])%list
    else Ok genes_in_range
  else Ok genes_in_range.

(** Lines 63-77: the body of the loop over the cached rows. *)
Definition scan_row_cached (chromosome : string)
    (start_position end_position : Z)
    (columns : list string) (genes_in_range : list gene_info)
  : result (list gene_info) :=
  if (2 <? length columns)%nat
     && String.eqb (nth_str columns 2) "gene"
     && String.eqb (nth_str columns 0) chromosome
  then
    c3 ← index columns 3;
    start ← int c3;
    c4 ← index columns 4;
    end_ ← int c4;
    if between start_position start end_position
       || between start_position end_ end_position
    then
      attributes ← index columns 8;
      let attr_dict := attr_dict_of attributes in
      gene_id ← concat_opt "ath:" (attr_dict !! "ID");
      let gene_name := attr_dict !! "Name" in
      Ok (genes_in_range ++
          [mk_gene_info gene_id gene_name (nth_str columns 0) start end_])%list
    else Ok genes_in_range
  else Ok genes_in_range.

(** [for line in file] of the first call: comment lines are skipped,
    every other line is split and appended to [self.GFF_file] before it
    is examined, so a raising row is already in the cache. *)
Fixpoint read_gff (chromosome : string) (start_position end_position : Z)
    (lines : list string) (gff : list (list string))
    (genes_in_range : list gene_info)
  : list (list string) * result (list gene_info) :=
  match lines with
  | [] => (gff, Ok genes_in_range)
  | line :: rest =>
      if startswith "#" line
      then read_gff chromosome start_position end_position rest gff
                    genes_in_range
      else
        let columns := split tab (strip line) in
        let gff := (gff ++ [columns])%list in
        match scan_row_reading chromosome start_position end_position
                               columns genes_in_range with
        | Ok genes' =>
            read_gff chromosome start_position end_position rest gff genes'
        | Raise e => (gff, Raise e)
        end
  end.

(** [for columns in self.GFF_file] of the later calls. *)
Fixpoint scan_gff (chromosome : string) (start_position end_position : Z)
    (rows : list (list string)) (genes_in_range : list gene_info)
  : result (list gene_info) :=
  match rows with
  | [] => Ok genes_in_range
  | columns :: rest =>
      genes' ← scan_row_cached chromosome start_position end_position
                               columns genes_in_range;
      scan_gff chromosome start_position end_position rest genes'
  end.

(** [genes_in_region(self, chromosome, start_position, end_position)]:
    [file] is the content of the annotation file, line by line; the
    result is the new object state and the returned list or the
    exception. *)
Definition genes_in_region (file : list string) (self : t)
    (chromosome : Z) (start_position end_position : Z)
  : t * result (list gene_info) :=
  let chromosome := "Chr" +:+ str_of_int chromosome in
  match GFF_file self with
  | [] =>
      let '(gff, r) :=
        read_gff chromosome start_position end_position file [] [] in
      ({| GFF_file := gff |}, r)
  | _ :: _ =>
      (self, scan_gff chromosome start_position end_position
                      (GFF_file self) [])
  end.

(** *** The region rule in the words of the specification *)

(** The rows of the annotation source: what [read_gff] keeps of a file. *)
Definition rows_of_file (file : list string) : list (list string) :=
  (λ line, split tab (strip line))
    <$> filter (λ line, startswith "#" line = false) file.

(** The rows a call looks at: the cache, or the file when the cache is
    empty. *)
Definition rows_seen (file : list string) (self : t) : list (list string) :=
  match GFF_file self with
  | [] => rows_of_file file
  | rows => rows
  end.

Definition bounds_of (columns : list string) : option (Z * Z) :=
  match columns !! 3%nat, columns !! 4%nat with
  | Some c3, Some c4 =>
      match int c3, int c4 with
      | Ok s, Ok e => Some (s, e)
      | _, _ => None
      end
  | _, _ => None
  end.

(** A gene row with a boundary inside the window: its start lies in
    [[start, end]] or its end lies in [[start, end]]. *)
Definition boundary_inside (start_position end_position : Z)
    (columns : list string) : bool :=
  match bounds_of columns with
  | Some (s, e) =>
      between start_position s end_position
      || between start_position e end_position
  | None => false
  end.

(** The gene features on the queried chromosome that the rule selects. *)
Definition region_hit (chromosome : string) (start_position end_position : Z)
    (columns : list string) : bool :=
  is_gene_row chromosome columns
  && boundary_inside start_position end_position columns.

Definition spec_selection (chromosome : string)
    (start_position end_position : Z) (rows : list (list string))
  : list (list string) :=
  filter (λ columns,
            region_hit chromosome start_position end_position columns = true)
         rows.

(** [g] is the entry built from the row [columns]. *)
Definition describes (columns : list string) (g : gene_info) : Prop :=
  chr g = nth_str columns 0
  ∧ bounds_of columns = Some (start g, end_ g)
  ∧ ∃ attributes id,
      columns !! 8%nat = Some attributes
      ∧ attr_dict_of attributes !! "ID" = Some id
      ∧ gene_id g = "ath:" +:+ id
      ∧ gene_name g = attr_dict_of attributes !! "Name".

(** The row carries an [ID] attribute in its ninth column. *)
Definition has_ID (columns : list string) : bool :=
  match columns !! 8%nat with
  | Some attributes => bool_decide (is_Some (attr_dict_of attributes !! "ID"))
  | None => false
  end.


(** A gene that spans the window without a boundary inside it. *)
Definition spans (start_position end_position : Z) (g : gene_info) : Prop :=
  (start g < start_position ∧ end_position < end_ g)%Z.

(** *** Well-formed attribute texts *)

Fixpoint all_chars (p : ascii → bool) (s : string) : bool :=
  match s with
  | EmptyString => true
  | String c s' => p c && all_chars p s'
  end.

(** A key: not empty, without = and ; *)
Definition plain_key (k : string) : bool :=
  negb (is_empty k) && all_chars not_eq_semi k.

(** An unquoted value: not empty, without ; and without quotes. *)
Definition plain_value (v : string) : bool :=
  negb (is_empty v) && all_chars (λ c, not_semi c && not_dquote c) v.

(** The attribute column written from its pairs: [k1=v1;k2=v2;...]. *)
Fixpoint format_attributes (pairs : list (string * string)) : string :=
  match pairs with
  | [] => EmptyString
  | (k, v) :: rest =>
      match rest with
      | [] => k +:+ "=" +:+ v
      | _ :: _ => k +:+ "=" +:+ v +:+ ";" +:+ format_attributes rest
      end
  end.


(** *** The region rule stated on the rows themselves *)

(** [columns] is a gene feature of the chromosome: more than two
    columns, the third is [gene], the first is the chromosome. *)
Definition gene_feature_on (chromosome : string) (columns : list string) : Prop :=
  (2 < length columns)%nat
  ∧ columns !! 2%nat = Some "gene"
  ∧ columns !! 0%nat = Some chromosome.

(** The start of the feature lies in [[start, end]] or its end lies in
    [[start, end]], both bounds included. *)
Definition boundary_in_window (start_position end_position : Z)
    (columns : list string) : Prop :=
  match columns !! 3%nat, columns !! 4%nat with
  | Some c3, Some c4 =>
      match int c3, int c4 with
      | Ok s, Ok e =>
          (start_position ≤ s ≤ end_position)%Z
          ∨ (start_position ≤ e ≤ end_position)%Z
      | _, _ => False
      end
  | _, _ => False
  end.

(** The rows the rule of the specification selects. *)
Definition selected_by_rule (chromosome : string)
    (start_position end_position : Z) (columns : list string) : Prop :=
  gene_feature_on chromosome columns
  ∧ boundary_in_window start_position end_position columns.

#[export] Instance boundary_in_window_dec sp ep columns :
  Decision (boundary_in_window sp ep columns).
Proof.
  unfold boundary_in_window.
  destruct (columns !! 3%nat) as [c3|]; [|apply _].
  destruct (columns !! 4%nat) as [c4|]; [|apply _].
  destruct (int c3) as [s|]; [|apply _].
  destruct (int c4) as [e|]; apply _.
Defined.

#[export] Instance selected_by_rule_dec chromosome sp ep columns :
  Decision (selected_by_rule chromosome sp ep columns).
Proof. unfold selected_by_rule, gene_feature_on. apply _. Defined.


(** A row the query can process: a gene feature of the chromosome has
    integer bounds, and an [ID] attribute when the rule selects it. *)
Definition well_formed_row (chromosome : string)
    (start_position end_position : Z) (columns : list string) : Prop :=
  gene_feature_on chromosome columns →
  (∃ c3 c4 s e,
      columns !! 3%nat = Some c3 ∧ columns !! 4%nat = Some c4
      ∧ int c3 = Ok s ∧ int c4 = Ok e)
  ∧ (boundary_in_window start_position end_position columns →
     ∃ attributes id,
       columns !! 8%nat = Some attributes
       ∧ attr_dict_of attributes !! "ID" = Some id).

#[export] Instance gene_feature_on_dec chromosome columns :
  Decision (gene_feature_on chromosome columns).
Proof. unfold gene_feature_on. apply _. Defined.

#[export] Instance well_formed_row_dec chromosome sp ep columns :
  Decision (well_formed_row chromosome sp ep columns).
Proof.
  unfold well_formed_row.
  destruct (decide (gene_feature_on chromosome columns)) as [Hg|Hg];
    [|left; by intros ?].
  destruct (columns !! 3%nat) as [c3|] eqn:H3;
    [|right; intros H; destruct (H Hg) as [(? & ? & ? & ? & ? & _) _];
      congruence].
  destruct (columns !! 4%nat) as [c4|] eqn:H4;
    [|right; intros H; destruct (H Hg) as [(? & ? & ? & ? & _ & ? & _) _];
      congruence].
  destruct (int c3) as [s|e3] eqn:Hs;
    [|right; intros H;
      destruct (H Hg) as [(? & ? & ? & ? & ? & _ & ? & _) _]; congruence].
  destruct (int c4) as [e|e4] eqn:He;
    [|right; intros H;
      destruct (H Hg) as [(? & ? & ? & ? & _ & ? & _ & ?) _]; congruence].
  destruct (decide (boundary_in_window sp ep columns)) as [Hw|Hw];
    [|left; intros _; split; [by exists c3, c4, s, e|by intros ?]].
  destruct (columns !! 8%nat) as [attributes|] eqn:H8;
    [|right; intros H; destruct (H Hg) as [_ Hid];
      destruct (Hid Hw) as (? & ? & ? & _); congruence].
  destruct (attr_dict_of attributes !! "ID") as [id|] eqn:Hid.
  - left. intros _. split; [by exists c3, c4, s, e|].
    intros _. by exists attributes, id.
  - right. intros H. destruct (H Hg) as [_ Hid'].
    destruct (Hid' Hw) as (? & ? & ? & ?). congruence.
Defined.

End GenesInRegion.

(** ** QTL.py *)
Module QTL.

(** A cell of the marker table: an integer or a text. *)
Inductive cell : Type :=
| CInt (z : Z)
| CStr (s : string).

(** A row of [self.markers]: the index label and the cells of the row. *)
Record marker_row : Type := mk_marker {
  m_label : cell;
  m_cells : list cell
}.

(** A pandas [Series] of scores: the labels with their values. *)
Definition series : Type := list (string * Q).

(** The data of a [Study]: the LOD matrix by trait (each row a series
    over the marker columns) and the marker table.  Trait codes are taken
    to be unique in the index, so that [.loc[trait]] is one row. *)
Record Study : Type := mk_study {
  name : string;
  LOD_scores : list (string * series);
  markers : list marker_row
}.

(** [trait in self.LOD_scores.index] *)
Definition in_index (trait : string) (self : Study) : bool :=
  bool_decide (trait ∈ (LOD_scores self).*1).

(** [self.LOD_scores.loc[trait]] *)
Definition loc (trait : string) (self : Study) : option series :=
  match list_find (λ r, r.1 = trait) (LOD_scores self) with
  | Some (_, r) => Some r.2
  | None => None
  end.

(** [abs(trait_LOD)] *)
Definition abs_series (s : series) : series :=
  (λ p, (p.1, Qabs p.2)) <$> s.

Definition values (s : series) : list Q := s.*2.

(** [x > y] and [x >= y] on scores *)
Definition gtb (x y : Q) : bool := negb (Qle_bool x y).
Definition geb (x y : Q) : bool := Qle_bool y x.

(** [data[i]] for a position inside the sequence *)
Definition item (data : list Q) (i : nat) : Q := default 0%Q (data !! i).

(** [find_local_maxima(data)]: the loop over [range(1, len(data) - 1)]
    appends the positions that exceed both neighbours. *)
Definition find_local_maxima (data : list Q) : list nat :=
  foldl (λ maxima_indices i,
           if gtb (item data i) (item data (i - 1))
              && gtb (item data i) (item data (i + 1))
           then (maxima_indices ++ [i])%list
           else maxima_indices)
        [] (seq 1 (length data - 1 - 1)).

(** [frame.iloc[positions]]: [IndexError] for a position out of range. *)
Definition iloc {A} (l : list A) (positions : list nat) : result (list A) :=
  foldr (λ i acc, a ← index l i; rest ← acc; mret (a :: rest))
        (mret []) positions.

(** [cell in labels] for a list of texts *)
Definition cell_isin (labels : list string) (c : cell) : bool :=
  match c with
  | CStr s => bool_decide (s ∈ labels)
  | CInt _ => false
  end.

Section WithQuantile.

(** [Series.quantile(q)] of pandas, applied to the values of a series. *)
Variable quantile : list Q → Q → Q.

(** The threshold in force: the argument, or the 95th percentile of the
    absolute scores when the argument is left out (default [0]) or is
    zero. *)
Definition threshold_in_force (threshold : option Q) (trait_LOD : series) : Q :=
  let threshold := default 0%Q threshold in
  if Qeq_bool threshold 0 then quantile (values trait_LOD) (95 # 100)
  else threshold.

(** [Study.get_peak(self, trait, threshold=0)] *)
Definition get_peak (self : Study) (trait : string) (threshold : option Q)
  : option series * option (list marker_row) :=
  if in_index trait self then
    match loc trait self with
    | Some trait_LOD =>
        let trait_LOD := abs_series trait_LOD in
        let threshold := default 0%Q threshold in
        let threshold :=
          if Qeq_bool threshold 0
          then quantile (values trait_LOD) (95 # 100)
          else threshold in
        let peak_LOD := filter (λ p, geb p.2 threshold = true) trait_LOD in
        let labels := peak_LOD.*1 in
        let peak_markers :=
          filter (λ m, cell_isin labels (m_label m) = true) (markers self) in
        let peak_markers :=
          if (length peak_markers =? 0)%nat
          then filter (λ m, existsb (cell_isin labels) (m_cells m) = true)
                      (markers self)
          else peak_markers in
        (Some peak_LOD, Some peak_markers)
    | None => (None, None)
    end
  else (None, None).

(** The list [peak_indices] of [get_peak_local_max]. *)
Definition peak_indices (trait_LOD : series) (threshold : Q) : list nat :=
  let maxima_indices := find_local_maxima (values trait_LOD) in
  filter (λ i, geb (item (values trait_LOD) i) threshold = true)
         maxima_indices.

(** [Study.get_peak_local_max(self, trait, threshold=0)] *)
Definition get_peak_local_max (self : Study) (trait : string)
    (threshold : option Q)
  : result (option series * option (list marker_row)) :=
  if in_index trait self then
    match loc trait self with
    | Some trait_LOD =>
        let trait_LOD := abs_series trait_LOD in
        let threshold := default 0%Q threshold in
        let threshold :=
          if Qeq_bool threshold 0
          then quantile (values trait_LOD) (95 # 100)
          else threshold in
        let peak_indices := peak_indices trait_LOD threshold in
        peak_LOD ← iloc trait_LOD peak_indices;
        peak_markers ← iloc (markers self) peak_indices;
        mret (Some peak_LOD, Some peak_markers)
    | None => mret (None, None)
    end
  else mret (None, None).

End WithQuantile.

(** The position [h = (n - 1) q] of the linear-interpolation quantile in
    a sorted sample, and the value read there, in exact arithmetic; used
    to run the definitions above on examples. *)
Fixpoint insert_sorted (x : Q) (l : list Q) : list Q :=
  match l with
  | [] => [x]
  | y :: l' => if Qle_bool x y then x :: l else y :: insert_sorted x l'
  end.

Definition sort (l : list Q) : list Q := foldr insert_sorted [] l.

Definition quantile_linear (l : list Q) (q : Q) : Q :=
  let sorted := sort l in
  let h := (inject_Z (Z.of_nat (length l - 1)) * q)%Q in
  let lo := Z.to_nat (Qfloor h) in
  let frac := (h - inject_Z (Qfloor h))%Q in
  let a := item sorted lo in
  let b := item sorted (Nat.min (lo + 1) (length l - 1)) in
  Qred (a + (b - a) * frac)%Q.

(** *** Peaks in the words of the specification *)

(** An interior position whose score exceeds both neighbours. *)
Definition local_maximum (scores : list Q) (i : nat) : Prop :=
  (1 ≤ i ∧ i + 2 ≤ length scores)%nat
  ∧ (item scores (i - 1) < item scores i)%Q
  ∧ (item scores (i + 1) < item scores i)%Q.

(** No score is above the next one; no score is below the next one. *)
Definition nondecreasing (scores : list Q) : Prop :=
  ∀ i a b, scores !! i = Some a → scores !! (i + 1)%nat = Some b →
           (a <= b)%Q.

Definition nonincreasing (scores : list Q) : Prop :=
  ∀ i a b, scores !! i = Some a → scores !! (i + 1)%nat = Some b →
           (b <= a)%Q.

Definition monotonic (scores : list Q) : Prop :=
  nondecreasing scores ∨ nonincreasing scores.


End QTL.

(** ** The remote lookups: Pathways.py, GenesInPath.py, GetEnzymesForGene.py *)
Module Kegg.

(** What [requests.get] returns: the status code and the body. *)
Record response : Type := mk_response {
  status_code : Z;
  text : string
}.

(** The observable actions of the lookups, in the order they happen. *)
Inductive event : Type :=
| Fetch (url : string)
| Sleep (seconds : Z)
| Print (line : string)
| PrintFailed (failed : gset string)
| PrintFailures (consecutive_failures : Z)
| AppendJson (data : gmap string (list string)).

Definition is_fetch (e : event) : bool :=
  match e with Fetch _ => true | _ => false end.

Definition is_sleep (e : event) : bool :=
  match e with Sleep _ => true | _ => false end.

(** The number of requests sent so far. *)
Definition fetch_count (tr : list event) : nat :=
  length (filter (λ e, is_fetch e = true) tr).

(** A computation that acts on the outside world: it extends the trace of
    events and returns a value or raises. *)
Definition io (A : Type) : Type := list event → result A * list event.

#[export] Instance io_ret : MRet io := λ A a tr, (Ok a, tr).

#[export] Instance io_bind : MBind io :=
  λ A B k m tr,
    match m tr with
    | (Ok a, tr') => k a tr'
    | (Raise e, tr') => (Raise e, tr')
    end.

Definition raise {A} (e : exn) : io A := λ tr, (Raise e, tr).

Definition emit (e : event) : io unit := λ tr, (Ok tt, (tr ++ [e])%list).

Definition lift {A} (r : result A) : io A := λ tr, (r, tr).

(** Unfolds the sequencing of [io] computations. *)
Ltac unfold_io :=
  unfold mbind, mret, io_bind, io_ret, raise, emit, lift in *.

(** The value of [get_kegg_pathways]: the empty list [[]] of the failure
    exits, or the set of collected pathway ids. *)
Inductive pathways_value : Type :=
| EmptyList
| PathwaySet (s : gset string).

(** [if pathways:] *)
Definition truthy (v : pathways_value) : bool :=
  match v with
  | EmptyList => false
  | PathwaySet s => negb (bool_decide (s = ∅))
  end.

(** [list(pathways)] *)
Definition to_list (v : pathways_value) : list string :=
  match v with
  | EmptyList => []
  | PathwaySet s => elements s
  end.

(** The ids held by a returned value. *)
Definition ids_of (v : pathways_value) : gset string :=
  match v with
  | EmptyList => ∅
  | PathwaySet s => s
  end.

Definition hex_digit (n : nat) : ascii :=
  match String.get n "0123456789ABCDEF" with
  | Some c => c
  | None => "0"%char
  end.

(** The characters [urllib.parse.quote] leaves alone: letters, digits,
    the marks [_.-~] and the default safe character [/]. *)
Definition quote_safe (c : ascii) : bool :=
  let n := nat_of_ascii c in
  ((48 <=? n) && (n <=? 57) || (65 <=? n) && (n <=? 90)
   || (97 <=? n) && (n <=? 122))%nat
  || contains_char c "_.-~/".

(** [urllib.parse.quote(s)] on the bytes of [s] *)
Fixpoint quote (s : string) : string :=
  match s with
  | EmptyString => EmptyString
  | String c s' =>
      if quote_safe c then String c (quote s')
      else let n := nat_of_ascii c in
           String "%" (String (hex_digit (n / 16))
                              (String (hex_digit (n mod 16)) (quote s')))
  end.

(** [pathway_id] does not start with a reserved overview prefix. *)
Definition not_overview (pathway_id : string) : bool :=
  negb (startswith "path:map011" pathway_id)
  && negb (startswith "path:map012" pathway_id).

(** Pathways.py, lines 106-112: the loop over the lines of a link
    response. *)
Fixpoint collect_pathways (resp_lines : list string) (pathways : list string)
  : list string :=
  match resp_lines with
  | [] => pathways
  | r_line :: rest =>
      if contains_char tab r_line then
        let pathway_id := default "" (split tab r_line !! 1%nat) in
        if negb (startswith "path:map011" pathway_id)
           && negb (startswith "path:map012" pathway_id)
        then collect_pathways rest (pathways ++ [pathway_id])%list
        else collect_pathways rest pathways
      else collect_pathways rest pathways
  end.

(** The source of the pattern compiled for a compound name; the name is
    pasted into the expression as it is. *)
Definition pattern_source (compound_name : string) : string :=
  "(?<![\w-])(?:[LD]-)?" +:+ compound_name +:+ "\b(?!-)".

(** GenesInPath.py, lines 68-75: the columns of the lines of a response. *)
Fixpoint append_genes (lines : list string) (gene_list : list string)
  : list string :=
  match lines with
  | [] => gene_list
  | line :: rest =>
      let columns := split tab line in
      if (1 <? length columns)%nat
      then append_genes rest
             (gene_list ++ [strip (default "" (columns !! 1%nat))])%list
      else append_genes rest gene_list
  end.

(** GetEnzymesForGene.py, lines 41-42: the list comprehension over the
    lines of the response. *)
Fixpoint enzyme_ids_of (lines : list string) : result (list string) :=
  match lines with
  | [] => mret []
  | line :: rest =>
      if negb (String.eqb (strip line) "") then
        second ← index (split tab line) 1;
        enzyme ← last_item (split ":" second);
        others ← enzyme_ids_of rest;
        mret (enzyme :: others)
      else enzyme_ids_of rest
  end.

Section WithService.

(** The remote service: the response to the [n]-th request overall
    (counting from zero) for a given address. *)
Variable net : nat → string → response.

(** [re.compile(source, flags=re.IGNORECASE)] followed by [re.search]:
    [None] when the source is not a regular expression, else the test
    whether the pattern occurs in a text. *)
Variable re_compile : string → option (string → bool).

(** [requests.get(url)] *)
Definition requests_get (url : string) : io response :=
  λ tr, (Ok (net (fetch_count tr) url), (tr ++ [Fetch url])%list).

(** Pathways.py, lines 57-60 and 94-97:
    [while t < 3 and response.status_code != 200], with [remaining]
    standing for [3 - t]. *)
Fixpoint retry_while (remaining : nat) (url : string) (response : response)
  : io Kegg.response :=
  match remaining with
  | O => mret response
  | S remaining' =>
      if negb (status_code response =? 200)%Z then
        response ← requests_get url;
        retry_while remaining' url response
      else mret response
  end.

(** Pathways.py, lines 52-60 and 91-97: the request and its retries. *)
Definition get_retrying (url : string) : io response :=
  response ← requests_get url;
  if negb (status_code response =? 200)%Z
  then retry_while 3 url response
  else mret response.

(** Pathways.py, lines 77-112: the loop over the lines of the search
    response; [lines] is the whole list, [todo] what is left of it. *)
Fixpoint lines_loop (pattern : string → bool) (lines todo : list string)
    (pathways : list string) : io pathways_value :=
  match todo with
  | [] => mret (PathwaySet (list_to_set pathways))
  | line :: rest =>
      match split tab line with
      | [compound_id; compound_names] =>
          if pattern compound_names then
            let pathway_url :=
              "http://rest.kegg.jp/" +:+ "link/pathway/" +:+ compound_id in
            response ← get_retrying pathway_url;
            if negb (status_code response =? 200)%Z
            then mret (PathwaySet (list_to_set pathways))
            else
              let resp_lines := split newline (strip (text response)) in
              if negb (bool_decide (lines = []))
              then lines_loop pattern lines rest
                              (collect_pathways resp_lines pathways)
              else lines_loop pattern lines rest pathways
          else lines_loop pattern lines rest pathways
      | _ => raise ValueError
      end
  end.

(** [get_kegg_pathways(compound_name)] *)
Definition get_kegg_pathways (compound_name : string) : io pathways_value :=
  let base_url := "http://rest.kegg.jp/" in
  let encoded_compound_name := quote compound_name in
  let search_url := base_url +:+ "find/compound/" +:+ encoded_compound_name in
  response ← get_retrying search_url;
  if negb (status_code response =? 200)%Z then mret EmptyList
  else
    let lines := split newline (strip (text response)) in
    if bool_decide (lines = []) then mret EmptyList
    else
      match re_compile (pattern_source compound_name) with
      | None => raise ReError
      | Some pattern => lines_loop pattern lines lines []
      end.

(** GenesInPath.py, [get_response]: [while retries < max_retries], with
    [remaining] standing for [max_retries - retries]. *)
Fixpoint get_response_loop (remaining : nat) (url : string)
  : io (option response) :=
  match remaining with
  | O => mret None
  | S remaining' =>
      response ← requests_get url;
      if (status_code response =? 200)%Z then mret (Some response)
      else
        _ ← emit (Print ("Request failed with status code "
                          +:+ str_of_int (status_code response)
                          +:+ ". Retrying..."));
        _ ← emit (Sleep 1);
        get_response_loop remaining' url
  end.

Definition get_response (url : string) : io (option response) :=
  let max_retries := 3%nat in
  let retries := 0%nat in
  get_response_loop (max_retries - retries) url.

(** GenesInPath.py, [get_genes_for_pathways]: the loop over
    [pathway_list] with the dict [genes]. *)
Fixpoint genes_loop (pathway_list : list string)
    (genes : gmap string (list string)) : io (gmap string (list string)) :=
  match pathway_list with
  | [] => mret genes
  | pathway_id :: rest =>
      if startswith "path:map011" pathway_id
         || startswith "path:map012" pathway_id
      then
        _ ← emit (Print ("filtered pathway ID:  " +:+ pathway_id));
        genes_loop rest genes
      else
        let pathway_ath := "ath" +:+ slice_from 8 pathway_id in
        let pathway_url := "https://rest.kegg.jp/link/ath/" +:+ pathway_ath in
        response ← get_response pathway_url;
        match response with
        | Some response =>
            let lines := split newline (strip (text response)) in
            let gene_list := append_genes lines [] in
            let genes := <[pathway_id := gene_list]> genes in
            if bool_decide (gene_list = [])
            then genes_loop rest (delete pathway_id genes)
            else genes_loop rest genes
        | None => genes_loop rest genes
        end
  end.

Definition get_genes_for_pathways (pathway_list : list string)
  : io (gmap string (list string)) :=
  genes_loop pathway_list ∅.

(** GetEnzymesForGene.py, [get_enzymes_for_gene(gene_id)] *)
Definition get_enzymes_for_gene (gene_id : string)
  : io (option (list string)) :=
  let url := "http://rest.kegg.jp/link/enzyme/" +:+ gene_id in
  response ← requests_get url;
  if (status_code response =? 200)%Z then
    enzyme_ids ← lift (enzyme_ids_of (split newline (text response)));
    mret (Some enzyme_ids)
  else
    _ ← emit (Print ("Failed to retrieve enzyme information for gene: "
                      +:+ gene_id));
    mret None.

(** *** The script body of Pathways.py *)

(** The variables of the round loop. *)
Record loop_state : Type := mk_loop_state {
  path_dict : gmap string (list string);
  failed_compounds : gset string;
  consecutive_failures : Z;
  run_for_all_traits : bool
}.

(** Lines 163-174: the loop over [compounds_to_process].  A Python set
    has no fixed iteration order; the model visits the compounds in the
    order of [elements]. *)
Fixpoint process_compounds (compounds : list string)
    (path_dict : gmap string (list string)) (failed_compounds : gset string)
  : io (gmap string (list string) * gset string) :=
  match compounds with
  | [] => mret (path_dict, failed_compounds)
  | kegg_comp :: rest =>
      pathways ← get_kegg_pathways kegg_comp;
      if truthy pathways then
        process_compounds rest (<[kegg_comp := to_list pathways]> path_dict)
                          failed_compounds
      else
        let failed_compounds := failed_compounds ∪ {[kegg_comp]} in
        _ ← emit (PrintFailed failed_compounds);
        process_compounds rest path_dict failed_compounds
  end.

(** Lines 155-187: one pass of the body of the [while] loop. *)
Definition round (traits : gset string) (st : loop_state) : io loop_state :=
  let compounds_to_process :=
    if run_for_all_traits st then traits else failed_compounds st in
  r ← process_compounds (elements compounds_to_process) (path_dict st) ∅;
  let consecutive_failures :=
    if bool_decide (r.2 = compounds_to_process)
    then (consecutive_failures st + 1)%Z
    else 0%Z in
  _ ← emit (PrintFailures consecutive_failures);
  _ ← emit (AppendJson r.1);
  mret {| path_dict := r.1; failed_compounds := r.2;
          consecutive_failures := consecutive_failures;
          run_for_all_traits := false |}.

(** Line 154: [while consecutive_failures <= 3]; [None] when the fuel is
    used up before the loop ends. *)
Fixpoint round_loop (fuel : nat) (traits : gset string) (st : loop_state)
  : io (option loop_state) :=
  if (consecutive_failures st <=? 3)%Z then
    match fuel with
    | O => mret None
    | S fuel' =>
        st' ← round traits st;
        round_loop fuel' traits st'
    end
  else mret (Some st).

(** Lines 143-190: the script body; [trait_column] is the second column
    of the list of traits.  The result is the set printed last. *)
Definition main (fuel : nat) (trait_column : list string)
  : io (option (gset string)) :=
  _ ← emit (AppendJson ∅);
  st ← round_loop fuel (list_to_set trait_column)
         {| path_dict := ∅; failed_compounds := ∅;
            consecutive_failures := 0; run_for_all_traits := true |};
  match st with
  | Some st =>
      _ ← emit (PrintFailed (failed_compounds st));
      mret (Some (failed_compounds st))
  | None => mret None
  end.

End WithService.

(** The addresses requested by [get_kegg_pathways]. *)
Definition search_url (compound_name : string) : string :=
  "http://rest.kegg.jp/" +:+ "find/compound/" +:+ quote compound_name.

Definition link_url (compound_id : string) : string :=
  "http://rest.kegg.jp/" +:+ "link/pathway/" +:+ compound_id.

(** The service answers no request for [url] with success. *)
Definition always_fails (net : nat → string → response) (url : string) : Prop :=
  ∀ n, status_code (net n url) ≠ 200%Z.

(** What a run reports besides its requests. *)
Definition reports (tr : list event) : list event :=
  filter (λ e, is_fetch e = false) tr.

(** The retry sets printed by a run: one after every failed compound and
    one at the end. *)
Definition printed_failed (tr : list event) : list (gset string) :=
  omap (λ e, match e with PrintFailed s => Some s | _ => None end) tr.

(** The counters printed by the rounds of a run, one per round. *)
Definition printed_failures (tr : list event) : list Z :=
  omap (λ e, match e with PrintFailures n => Some n | _ => None end) tr.

End Kegg.

(** ** main.py: the statistical test *)
Module StatTest.

(** A row of [gene_counts_df]; [None] stands for a missing number. *)
Record gene_counts_row : Type := mk_gene_counts {
  gc_Compound : string;
  gc_mQTL_Gene_Counts : option Z;
  gc_map_Gene_Counts : option Z
}.

(** A row of [filtered_gene_counts_df]. *)
Record matched_row : Type := mk_matched {
  fm_Compound : string;
  fm_Gene_Count : option Z
}.

(** A row of [merged_df] after [fillna(0)] and the added column. *)
Record merged_row : Type := mk_merged {
  Compound : string;
  mQTL_Gene_Counts : Z;
  map_Gene_Counts : Z;
  Gene_Count : Z;
  Total_Genes : Z
}.

(** A 2x2 table [[[a, b], [c, d]]]. *)
Definition table : Type := (Z * Z) * (Z * Z).

(** The calls into the statistics libraries, in the order they are made. *)
Inductive call : Type :=
| CallFisherExact (t : table) (alternative : string)
| CallMultipletests (pvals : list Q) (method : string).

Definition is_multipletests (c : call) : bool :=
  match c with CallMultipletests _ _ => true | _ => false end.

(** [merged_df] at the end of the test: the merged rows and the two added
    columns. *)
Record report : Type := mk_report {
  rows : list merged_row;
  Fisher_Exact_p_value : list Q;
  Adj_p_value : list Q
}.

(** A table with a negative cell. *)
Definition negative_cell (t : table) : bool :=
  ((t.1.1 <? 0) || (t.1.2 <? 0) || (t.2.1 <? 0) || (t.2.2 <? 0))%Z.

(** [pd.merge(left, right, on='Compound')] (an inner join in the order of
    the left rows), [fillna(0)], and the column [Total Genes]. *)
Definition merge (left : list gene_counts_row) (right : list matched_row)
  : list merged_row :=
  l ← left;
  r ← filter (λ r, fm_Compound r = gc_Compound l) right;
  [ {| Compound := gc_Compound l;
       mQTL_Gene_Counts := default 0%Z (gc_mQTL_Gene_Counts l);
       map_Gene_Counts := default 0%Z (gc_map_Gene_Counts l);
       Gene_Count := default 0%Z (fm_Gene_Count r);
       Total_Genes := (27533 - 231)%Z |} ].

(** The table of the specification for one compound. *)
Definition spec_table (row : merged_row) : table :=
  ((map_Gene_Counts row, (27302 - map_Gene_Counts row)%Z),
   (Gene_Count row, (mQTL_Gene_Counts row - Gene_Count row)%Z)).

Section WithStatistics.

(** [scipy.stats.fisher_exact(table, alternative)]: the odds ratio and
    the p-value, or the exception the library raises for the table. *)
Variable fisher_exact : table → string → result (Q * Q).

(** [multipletests(pvals, method)] of statsmodels: the rejections and the
    adjusted p-values, or the exception the library raises. *)
Variable multipletests : list Q → string → result (list bool * list Q).

(** The two-sided exact test returns for the table, with this p-value. *)
Definition answers (t : table) (p : Q) : Prop :=
  ∃ oddsratio, fisher_exact t "two-sided" = Ok (oddsratio, p).

(** main.py, lines 187-198: the loop over [merged_df.iterrows()].  Each
    call is recorded when it is made; an exception of [fisher_exact] is
    not caught and ends the loop. *)
Fixpoint iterrows (todo : list merged_row) (p_values : list Q)
    (log : list call) : result (list Q) * list call :=
  match todo with
  | [] => (Ok p_values, log)
  | row :: rest =>
      let a := map_Gene_Counts row in
      let b := (Total_Genes row - map_Gene_Counts row)%Z in
      let c := Gene_Count row in
      let d := (mQTL_Gene_Counts row - Gene_Count row)%Z in
      let log := (log ++ [CallFisherExact ((a, b), (c, d)) "two-sided"])%list in
      match fisher_exact ((a, b), (c, d)) "two-sided" with
      | Ok (oddsratio, p_value) =>
          iterrows rest (p_values ++ [p_value])%list log
      | Raise e => (Raise e, log)
      end
  end.

(** main.py, lines 172-208: the outcome and the calls made. *)
Definition statistical_test (gene_counts_df : list gene_counts_row)
    (filtered_gene_counts_df : list matched_row)
  : result report * list call :=
  let merged_df := merge gene_counts_df filtered_gene_counts_df in
  match iterrows merged_df [] [] with
  | (Ok p_values, log) =>
      let log := (log ++ [CallMultipletests p_values "fdr_bh"])%list in
      match multipletests p_values "fdr_bh" with
      | Ok (reject, adjusted_p_values) =>
          (Ok {| rows := merged_df;
                 Fisher_Exact_p_value := p_values;
                 Adj_p_value := adjusted_p_values |}, log)
      | Raise e => (Raise e, log)
      end
  | (Raise e, log) => (Raise e, log)
  end.

End WithStatistics.

End StatTest.

(** ** Sample data on which the statements below are exercised *)
Module Sample.

Import GenesInRegion QTL Kegg StatTest.

Definition tsv (columns : list string) : string :=
  foldr (λ c acc, match acc with
                  | EmptyString => c
                  | _ => c +:+ String tab acc
                  end) EmptyString columns.

Definition unlines (lines : list string) : string :=
  foldr (λ l acc, l +:+ String newline acc) EmptyString lines.

Definition gff_line (chrom kind first last attributes : string) : string :=
  tsv [chrom; "Araport11"; kind; first; last; "."; "+"; "."; attributes]
  +:+ String newline EmptyString.

(** An annotation file around the window [[50000, 150000]] of
    chromosome 3. *)
Definition gff : list string :=
  [ "##gff-version 3";
    gff_line "Chr3" "gene" "40000" "60000" "ID=AT3G01010;Name=GA";
    gff_line "Chr3" "mRNA" "40000" "60000" "ID=AT3G01010.1;Parent=AT3G01010";
    gff_line "Chr3" "gene" "60001" "260000" "ID=AT3G01020;Note=kinase";
    gff_line "Chr3" "gene" "10000" "200000" "ID=AT3G01030;Name=GC";
    gff_line "Chr1" "gene" "95000" "105000" "ID=AT1G01010;Name=GENE1";
    gff_line "Chr3" "gene" "150000" "150500" "ID=AT3G01040" ].

(** The same file with a gene in the window that has no [ID]. *)
Definition gff_no_id : list string :=
  [ gff_line "Chr3" "gene" "40000" "60000" "ID=AT3G01010;Name=GA";
    gff_line "Chr3" "gene" "70000" "80000" "Name=orphan;Note=kinase";
    gff_line "Chr3" "gene" "90000" "95000" "ID=AT3G01050" ].

(** One trait over seven markers, the scores of the specification. *)
Definition lod_row : series :=
  [("m1", 1); ("m2", -5); ("m3", 2); ("m4", 9); ("m5", -3); ("m6", 7);
   ("m7", 1)]%Q.

Definition marker_table : list marker_row :=
  (λ p : string * Z, mk_marker (CStr p.1) [CInt 1; CInt p.2])
    <$> [("m1", 10000); ("m2", 60000); ("m3", 100000); ("m4", 200000);
         ("m5", 300000); ("m6", 400000); ("m7", 500000)]%Z.

Definition study : Study :=
  {| name := "Serin_etal_2017_pheno";
     LOD_scores := [("trait_1", lod_row)];
     markers := marker_table |}.

(** [s] occurs in [text]. *)
Fixpoint occurs (s text : string) : bool :=
  String.prefix s text
  || match text with
     | EmptyString => false
     | String _ text' => occurs s text'
     end.

(** A stand-in for the regular-expression engine on plain names: the
    name is cut out of the pattern source and searched as a literal. *)
Definition literal_engine (source : string) : option (string → bool) :=
  let name := String.substring 20 (String.length source - 27) source in
  Some (occurs name).

Definition ok (body : string) : response := mk_response 200 body.
Definition unavailable : response := mk_response 503 "".

(** A service that never answers. *)
Definition net_down (n : nat) (url : string) : response := unavailable.

(** A service that knows Raffinose under two compound ids; the links of
    the first id answer, those of the second never do, and nothing else
    is known. *)
Definition net_partial (n : nat) (url : string) : response :=
  if String.eqb url "http://rest.kegg.jp/find/compound/Raffinose" then
    ok (unlines [tsv ["cpd:C00492"; "Raffinose; Melitose"];
                 tsv ["cpd:C99999"; "D-Raffinose"]])
  else if String.eqb url "http://rest.kegg.jp/link/pathway/cpd:C00492" then
    ok (unlines [tsv ["cpd:C00492"; "path:map00052"];
                 tsv ["cpd:C00492"; "path:map01100"];
                 tsv ["cpd:C00492"; "path:map02010"]])
  else unavailable.

(** The same service with the second id answering too, without a new
    pathway. *)
Definition net_full (n : nat) (url : string) : response :=
  if String.eqb url "http://rest.kegg.jp/link/pathway/cpd:C99999" then
    ok (unlines [tsv ["cpd:C99999"; "path:map00052"]])
  else net_partial n url.

(** A service whose first two answers fail. *)
Definition net_flaky (n : nat) (url : string) : response :=
  if (n <? 2)%nat then unavailable else net_partial n url.

Definition counts : list gene_counts_row :=
  [ mk_gene_counts "Raffinose" (Some 40%Z) (Some 120%Z);
    mk_gene_counts "Sucrose" (Some 12%Z) None;
    mk_gene_counts "Alanine" (Some 7%Z) (Some 55%Z) ].

Definition matched : list matched_row :=
  [ mk_matched "Alanine" (Some 2%Z);
    mk_matched "Raffinose" (Some 5%Z);
    mk_matched "Sucrose" None ].

(** Counts in which Raffinose has fewer genes in its mQTL regions than
    genes matched: three against five. *)
Definition counts_bad : list gene_counts_row :=
  [ mk_gene_counts "Alanine" (Some 7%Z) (Some 55%Z);
    mk_gene_counts "Raffinose" (Some 3%Z) (Some 120%Z);
    mk_gene_counts "Sucrose" (Some 12%Z) None ].

(** A stand-in for the exact test that checks its table as the library
    does, [ValueError] for a negative cell, and otherwise answers with a
    number made from the table in place of the p-value. *)
Definition fisher_checked (t : table) (alternative : string)
  : result (Q * Q) :=
  if negative_cell t then Raise ValueError
  else Ok (1%Q, (1 # Z.to_pos (t.2.1 + 1))%Q).

(** A stand-in for the correction: every p-value times their number. *)
Definition bh_scaled (pvals : list Q) (method : string)
  : result (list bool * list Q) :=
  Ok ([], Qmult (inject_Z (Z.of_nat (length pvals))) <$> pvals).

End Sample.

(* ===================================================================== *)
(** * Part II: statements and proofs                                      *)
(* ===================================================================== *)

(** ** The region query *)
Module GenesInRegionFacts.

Import GenesInRegion.

(** The two copies of the loop body in the source do the same. *)
Lemma scan_row_copies_agree chromosome sp ep columns genes :
  scan_row_reading chromosome sp ep columns genes
  = scan_row_cached chromosome sp ep columns genes.
Proof. reflexivity. Qed.

(** A scan extends the list it is given, row by row. *)
Lemma scan_gff_app chromosome sp ep rows1 rows2 genes :
  scan_gff chromosome sp ep (rows1 ++ rows2) genes
  = genes' ← scan_gff chromosome sp ep rows1 genes;
    scan_gff chromosome sp ep rows2 genes'.
Proof.
  revert genes. induction rows1 as [|columns rows1 IH]; intros genes.
  - reflexivity.
  - simpl. unfold_result.
    destruct (scan_row_cached chromosome sp ep columns genes); [apply IH|done].
Qed.

(** Reading the file examines the rows of the file like a scan of the
    cache does. *)
Lemma read_gff_result chromosome sp ep lines gff genes :
  (read_gff chromosome sp ep lines gff genes).2
  = scan_gff chromosome sp ep (rows_of_file lines) genes.
Proof.
  revert gff genes. induction lines as [|line lines IH]; intros gff genes.
  - reflexivity.
  - unfold rows_of_file in *. simpl. rewrite filter_cons.
    destruct (startswith "#" line) eqn:Hc.
    + rewrite decide_False by done. apply IH.
    + rewrite decide_True by done. rewrite fmap_cons. simpl.
      rewrite scan_row_copies_agree. unfold_result.
      destruct (scan_row_cached _ _ _ _ _); [apply IH|done].
Qed.

(** A read that does not raise leaves every row of the file in the
    cache. *)
Lemma read_gff_cache chromosome sp ep lines gff genes cache out :
  read_gff chromosome sp ep lines gff genes = (cache, Ok out) →
  cache = (gff ++ rows_of_file lines)%list.
Proof.
  revert gff genes. induction lines as [|line lines IH]; intros gff genes.
  - simpl. intros [= <- _]. by rewrite app_nil_r.
  - unfold rows_of_file in *. simpl. rewrite filter_cons.
    destruct (startswith "#" line) eqn:Hc.
    + rewrite decide_False by done. apply IH.
    + rewrite decide_True by done. rewrite fmap_cons.
      destruct (scan_row_reading _ _ _ _ _); [|done].
      intros H. apply IH in H. by rewrite H, <- app_assoc.
Qed.

(** The outcome of a query is a scan of the rows it looks at. *)
Lemma genes_in_region_result file self chromosome sp ep :
  (genes_in_region file self chromosome sp ep).2
  = scan_gff ("Chr" +:+ str_of_int chromosome) sp ep (rows_seen file self) [].
Proof.
  unfold genes_in_region, rows_seen.
  destruct (GFF_file self) as [|row rows] eqn:Hc.
  - pose proof (read_gff_result ("Chr" +:+ str_of_int chromosome) sp ep
                                file [] []) as H.
    destruct (read_gff _ _ _ _ _ _). exact H.
  - reflexivity.
Qed.

(** Once the file has been read, later queries look at the same rows. *)
Lemma genes_in_region_cache file self chromosome sp ep self' genes :
  genes_in_region file self chromosome sp ep = (self', Ok genes) →
  rows_seen file self = rows_of_file file →
  rows_seen file self' = rows_of_file file.
Proof.
  unfold genes_in_region, rows_seen.
  destruct (GFF_file self) as [|row rows] eqn:Hc.
  - destruct (read_gff _ _ _ _ _ _) as [cache r] eqn:Hr.
    intros [= <- ->] _. apply read_gff_cache in Hr. simpl in *. subst cache.
    by destruct (rows_of_file file).
  - intros [= <- _] H. by rewrite Hc.
Qed.

(** What one pass of the loop body does to the list. *)
Lemma scan_row_cached_ok chromosome sp ep columns genes out :
  scan_row_cached chromosome sp ep columns genes = Ok out →
  (region_hit chromosome sp ep columns = true
   ∧ ∃ g, describes columns g ∧ out = (genes ++ [g])%list)
  ∨ (region_hit chromosome sp ep columns = false ∧ out = genes).
Proof.
  unfold scan_row_cached, region_hit, boundary_inside, bounds_of, is_gene_row.
  destruct (_ && _ && _) eqn:Hrow; simpl.
  2: { intros [= <-]. by right. }
  unfold_result. unfold index.
  destruct (columns !! 3%nat) as [c3|] eqn:H3; [|done].
  destruct (int c3) as [s|] eqn:Hs; [|done].
  destruct (columns !! 4%nat) as [c4|] eqn:H4; [|done].
  destruct (int c4) as [e|] eqn:He; [|done].
  destruct (between sp s ep || between sp e ep) eqn:Hin.
  2: { intros [= <-]. by right. }
  destruct (columns !! 8%nat) as [attributes|] eqn:H8; [|done].
  unfold concat_opt.
  destruct (attr_dict_of attributes !! "ID") as [id|] eqn:Hid; [|done].
  intros [= <-]. left. split; [done|].
  eexists. split; [|reflexivity].
  unfold describes, bounds_of. simpl. rewrite H3, H4, Hs, He.
  split_and!; [done..|]. exists attributes, id. by rewrite Hid.
Qed.


(** A gene row in the window without an [ID] makes the body raise. *)
Lemma scan_row_cached_no_ID chromosome sp ep columns genes :
  region_hit chromosome sp ep columns = true →
  has_ID columns = false →
  ∃ e, scan_row_cached chromosome sp ep columns genes = Raise e.
Proof.
  unfold region_hit, has_ID. intros [Hrow Hb]%andb_true_iff.
  unfold scan_row_cached. unfold is_gene_row in Hrow. rewrite Hrow.
  unfold boundary_inside, bounds_of in Hb.
  unfold_result. unfold index.
  destruct (columns !! 3%nat) as [c3|] eqn:H3; [|done].
  destruct (columns !! 4%nat) as [c4|] eqn:H4; [|done].
  destruct (int c3) as [s|] eqn:Hs; [|done].
  destruct (int c4) as [e|] eqn:He; [|done].
  rewrite Hb.
  destruct (columns !! 8%nat) as [attributes|] eqn:H8; [|by eauto].
  intros Hid%bool_decide_eq_false.
  destruct (attr_dict_of attributes !! "ID") as [id|] eqn:Hid'.
  - destruct Hid. by eauto.
  - simpl. by eauto.
Qed.

(** A scan that returns has appended the entries of the selected rows, in
    the order of the rows. *)
Lemma scan_gff_ok chromosome sp ep rows genes out :
  scan_gff chromosome sp ep rows genes = Ok out →
  ∃ found, out = (genes ++ found)%list
    ∧ Forall2 describes (spec_selection chromosome sp ep rows) found.
Proof.
  revert genes. induction rows as [|columns rows IH]; intros genes; simpl.
  - intros [= <-]. exists []. by rewrite app_nil_r.
  - unfold_result.
    destruct (scan_row_cached chromosome sp ep columns genes) as [mid|] eqn:Hrow;
      [|done].
    intros Hrest. apply IH in Hrest as (found & -> & Hfound).
    unfold spec_selection in *. rewrite filter_cons.
    apply scan_row_cached_ok in Hrow as [(Hhit & g & Hg & ->)|(Hhit & ->)].
    + rewrite decide_True by done. exists (g :: found).
      split; [by rewrite <- app_assoc|]. by constructor.
    + rewrite decide_False by (by rewrite Hhit). by exists found.
Qed.


Lemma scan_gff_no_ID chromosome sp ep rows genes columns :
  columns ∈ rows →
  region_hit chromosome sp ep columns = true →
  has_ID columns = false →
  ∃ e, scan_gff chromosome sp ep rows genes = Raise e.
Proof.
  intros Hin Hhit Hid. revert genes.
  induction Hin as [columns rows|columns other rows _ IH]; intros genes; simpl.
  - destruct (scan_row_cached_no_ID chromosome sp ep columns genes Hhit Hid)
      as [e ->].
    by eauto.
  - unfold_result.
    destruct (scan_row_cached chromosome sp ep other genes);
      [by apply IH|by eauto].
Qed.

(** An entry built from a selected row has a boundary in the window. *)
Lemma described_hit_not_spanning chromosome sp ep columns g :
  region_hit chromosome sp ep columns = true →
  describes columns g →
  ¬ spans sp ep g.
Proof.
  unfold region_hit, boundary_inside, describes, spans, between.
  intros Hhit (_ & Hb & _). rewrite Hb in Hhit.
  apply andb_true_iff in Hhit as [_ Hhit]. lia.
Qed.

(** Whenever a query returns, it returns the entries of the selected rows
    and no gene spanning the window. *)
Lemma genes_in_region_sound file self chromosome sp ep genes :
  (genes_in_region file self chromosome sp ep).2 = Ok genes →
  Forall2 describes
    (spec_selection ("Chr" +:+ str_of_int chromosome) sp ep
                    (rows_seen file self)) genes
  ∧ Forall (λ g, ¬ spans sp ep g) genes.
Proof.
  rewrite genes_in_region_result. intros H.
  apply scan_gff_ok in H as (found & -> & Hfound). simpl.
  split; [done|].
  assert (Forall (λ columns, region_hit ("Chr" +:+ str_of_int chromosome)
                               sp ep columns = true)
            (spec_selection ("Chr" +:+ str_of_int chromosome) sp ep
                            (rows_seen file self))) as Hsel.
  { apply Forall_forall. intros columns Hc.
    unfold spec_selection in Hc. by apply list_elem_of_filter in Hc as [? _]. }
  induction Hfound as [|columns g sel found Hg _ IH]; [by constructor|].
  inversion Hsel; subst. constructor; [|by apply IH].
  by eapply described_hit_not_spanning.
Qed.










(** C8. Missing identifier: when a gene feature selected by the query has
    no [ID] attribute in its attribute column, [genes_in_region] raises
    instead of returning a list with a placeholder id. *)
Theorem genes_in_region_missing_ID_raises file self chromosome sp ep columns :
  columns ∈ rows_seen file self →
  region_hit ("Chr" +:+ str_of_int chromosome) sp ep columns = true →
  has_ID columns = false →
  ∃ e, (genes_in_region file self chromosome sp ep).2 = Raise e.
Proof.
  intros Hin Hhit Hid. rewrite genes_in_region_result.
  by eapply scan_gff_no_ID.
Qed.

(** The scan of the attribute text never runs out of fuel: every match
    consumes at least one character. *)
Lemma span_length p s :
  (String.length (span p s).2 ≤ String.length s)%nat.
Proof.
  induction s as [|c s IH]; simpl; [lia|].
  destruct (p c); [|simpl; lia].
  destruct (span p s). simpl in *. lia.
Qed.

Lemma match_plain_length key r k v rest :
  match_plain key r = Some (k, v, rest) →
  (String.length rest ≤ String.length r)%nat.
Proof.
  unfold match_plain. pose proof (span_length not_semi r) as H.
  destruct (span not_semi r) as [v' rest']. simpl in H.
  destruct (is_empty v'); [done|]. by intros [= _ _ <-].
Qed.

Lemma match_at_length s k v rest :
  match_at s = Some (k, v, rest) →
  (String.length rest < String.length s)%nat.
Proof.
  unfold match_at. pose proof (span_length not_eq_semi s) as H1.
  destruct (span not_eq_semi s) as [key r1]. simpl in H1.
  destruct (is_empty key); [done|].
  destruct r1 as [|c1 r2]; [done|].
  destruct c1 as [[] [] [] [] [] [] [] []]; try done.
  destruct r2 as [|q r3]; [done|]. simpl in H1.
  assert (∀ x, match_plain key (String q r3) = Some x →
               (String.length x.2 < String.length s)%nat) as Hplain.
  { intros [[k' v'] rest'] Hp%match_plain_length. simpl in *. lia. }
  destruct (Ascii.eqb q dquote); [|by intros Hp%Hplain].
  pose proof (span_length not_dquote r3) as H3.
  destruct (span not_dquote r3) as [body r4]. simpl in H3.
  destruct r4 as [|q' r5]; [by intros Hp%Hplain|].
  destruct (negb (is_empty body) && Ascii.eqb q' dquote);
    [|by intros Hp%Hplain].
  intros [= _ _ <-]. simpl in *. lia.
Qed.

Lemma finditer_fuel_stable n m s :
  (String.length s ≤ n)%nat → (String.length s ≤ m)%nat →
  finditer_fuel n s = finditer_fuel m s.
Proof.
  revert m s. induction n as [|n IH]; intros m s Hn Hm.
  - destruct s; [|simpl in Hn; lia]. by destruct m.
  - destruct m as [|m]; [destruct s; [done|simpl in Hm; lia]|].
    simpl. destruct s as [|c s']; [done|].
    destruct (match_at (String c s')) as [[[k v] rest]|] eqn:Hm'.
    + apply match_at_length in Hm'. f_equal. apply IH; lia.
    + simpl in *. apply IH; lia.
Qed.

Lemma finditer_fuel_enough n s :
  (String.length s ≤ n)%nat → finditer_fuel n s = finditer s.
Proof. intros H. by apply finditer_fuel_stable. Qed.

(** The three genes of the specification around the window
    [[50000, 150000]] of chromosome 3: the gene ending in the window and
    the gene starting in it are returned, the spanning gene is not. *)
Example genes_in_region_sample :
  (genes_in_region Sample.gff init 3 50000 150000).2
  = Ok [ mk_gene_info "ath:AT3G01010" (Some "GA") "Chr3" 40000 60000;
         mk_gene_info "ath:AT3G01020" None "Chr3" 60001 260000;
         mk_gene_info "ath:AT3G01040" None "Chr3" 150000 150500 ].
Proof. vm_compute. reflexivity. Qed.

(** The second query of an object goes through the cache and agrees. *)
Example genes_in_region_sample_cached :
  let self := (genes_in_region Sample.gff init 3 50000 150000).1 in
  GFF_file self = rows_of_file Sample.gff
  ∧ (genes_in_region [] self 3 50000 150000).2
    = (genes_in_region Sample.gff init 3 50000 150000).2.
Proof. vm_compute. split; reflexivity. Qed.

Example genes_in_region_sample_no_id :
  (genes_in_region Sample.gff_no_id init 3 50000 150000).2 = Raise TypeError.
Proof. vm_compute. reflexivity. Qed.


Lemma genes_in_region_missing_ID_raises_witness :
  ∃ e, (genes_in_region Sample.gff_no_id init 3 50000 150000).2 = Raise e.
Proof.
  apply (genes_in_region_missing_ID_raises Sample.gff_no_id init 3 50000 150000
           ["Chr3"; "Araport11"; "gene"; "70000"; "80000"; "."; "+"; ".";
            "Name=orphan;Note=kinase"]).
  - vm_compute (rows_seen _ _).
    apply list_elem_of_further, list_elem_of_here.
  - vm_compute. reflexivity.
  - vm_compute. reflexivity.
Defined.

End GenesInRegionFacts.

(** ** Peak detection *)
Module QTLFacts.

Import QTL.

Lemma gtb_lt x y : gtb x y = true ↔ (y < x)%Q.
Proof.
  unfold gtb. rewrite negb_true_iff, <- not_true_iff_false, Qle_bool_iff.
  split; [apply Qnot_le_lt|apply Qlt_not_le].
Qed.

Lemma geb_le x y : geb x y = true ↔ (y <= x)%Q.
Proof. apply Qle_bool_iff. Qed.

(** The loop of [find_local_maxima] is a filter of the interior
    positions. *)
Lemma foldl_append_filter (f : nat → bool) (l acc : list nat) :
  foldl (λ acc i, if f i then (acc ++ [i])%list else acc) acc l
  = (acc ++ filter (λ i, f i = true) l)%list.
Proof.
  revert acc. induction l as [|i l IH]; intros acc; simpl.
  - by rewrite app_nil_r.
  - rewrite IH, filter_cons. destruct (f i).
    + rewrite decide_True by done. by rewrite <- app_assoc.
    + by rewrite decide_False by done.
Qed.

Lemma find_local_maxima_filter data :
  find_local_maxima data
  = filter (λ i, gtb (item data i) (item data (i - 1))
                 && gtb (item data i) (item data (i + 1)) = true)
           (seq 1 (length data - 1 - 1)).
Proof. unfold find_local_maxima. by rewrite foldl_append_filter. Qed.

Lemma elem_of_find_local_maxima data i :
  i ∈ find_local_maxima data ↔ local_maximum data i.
Proof.
  rewrite find_local_maxima_filter, list_elem_of_filter, elem_of_seq.
  rewrite andb_true_iff, !gtb_lt. unfold local_maximum. intuition lia.
Qed.

Lemma StronglySorted_lt_seq start len : StronglySorted lt (seq start len).
Proof.
  revert start. induction len as [|len IH]; intros start; simpl.
  - constructor.
  - constructor; [apply IH|].
    apply Forall_forall. intros i Hi%elem_of_seq. lia.
Qed.

Lemma StronglySorted_lt_filter (P : nat → Prop) `{∀ i, Decision (P i)} l :
  StronglySorted lt l → StronglySorted lt (filter P l).
Proof.
  induction 1 as [|i l _ IH Hi]; [constructor|].
  rewrite filter_cons. destruct (decide (P i)); [|done].
  constructor; [done|].
  apply Forall_forall. intros j [_ Hj]%list_elem_of_filter.
  by eapply Forall_forall in Hi.
Qed.

(** Boundary positions are never local maxima. *)
Lemma local_maximum_interior scores i :
  local_maximum scores i → (0 < i ∧ i < length scores - 1)%nat.
Proof. unfold local_maximum. lia. Qed.

Lemma item_abs scores i : item (Qabs <$> scores) i = Qabs (item scores i).
Proof.
  unfold item. rewrite list_lookup_fmap. by destruct (scores !! i).
Qed.

Lemma values_abs_series row : values (abs_series row) = Qabs <$> values row.
Proof.
  unfold values, abs_series. rewrite <- !list_fmap_compose. done.
Qed.

Lemma lookup_item data i :
  (i < length data)%nat → data !! i = Some (item data i).
Proof. intros [x Hx]%lookup_lt_is_Some. unfold item. by rewrite Hx. Qed.

Lemma item_lookup data i x : data !! i = Some x → item data i = x.
Proof. unfold item. by intros ->. Qed.

Lemma nondecreasing_item scores :
  nondecreasing scores →
  ∀ i, (i + 1 < length scores)%nat →
       (item scores i <= item scores (i + 1))%Q.
Proof. intros H i Hi. apply (H i); apply lookup_item; lia. Qed.

Lemma nonincreasing_item scores :
  nonincreasing scores →
  ∀ i, (i + 1 < length scores)%nat →
       (item scores (i + 1) <= item scores i)%Q.
Proof. intros H i Hi. apply (H i); apply lookup_item; lia. Qed.

(** The absolute values of a monotonic sequence have no local maximum. *)
Lemma monotonic_no_local_maximum scores i :
  monotonic scores ∨ monotonic (Qabs <$> scores) →
  ¬ local_maximum (Qabs <$> scores) i.
Proof.
  unfold local_maximum. rewrite length_fmap.
  intros Hmono ((Hlo & Hhi) & Hl & Hr).
  destruct Hmono as [[Hm'|Hm']|[Hm'|Hm']];
    [pose proof (nondecreasing_item _ Hm') as Hm
    |pose proof (nonincreasing_item _ Hm') as Hm
    |pose proof (nondecreasing_item _ Hm') as Hm
    |pose proof (nonincreasing_item _ Hm') as Hm]; clear Hm'.
  - pose proof (Hm (i - 1)%nat ltac:(lia)) as H1.
    pose proof (Hm i ltac:(lia)) as H2.
    replace (i - 1 + 1)%nat with i in H1 by lia.
    rewrite !item_abs in Hl, Hr. revert Hl Hr.
    apply (Qabs_case (item scores i)); apply (Qabs_case (item scores (i - 1)));
      apply (Qabs_case (item scores (i + 1))); intros; lra.
  - pose proof (Hm (i - 1)%nat ltac:(lia)) as H1.
    pose proof (Hm i ltac:(lia)) as H2.
    replace (i - 1 + 1)%nat with i in H1 by lia.
    rewrite !item_abs in Hl, Hr. revert Hl Hr.
    apply (Qabs_case (item scores i)); apply (Qabs_case (item scores (i - 1)));
      apply (Qabs_case (item scores (i + 1))); intros; lra.
  - pose proof (Hm i) as H2. rewrite length_fmap in H2.
    specialize (H2 ltac:(lia)). lra.
  - pose proof (Hm (i - 1)%nat) as H1. rewrite length_fmap in H1.
    specialize (H1 ltac:(lia)).
    replace (i - 1 + 1)%nat with i in H1 by lia. lra.
Qed.

(** Positions inside a table can be read with [iloc]. *)
Lemma iloc_total {A} (l : list A) positions :
  Forall (λ i, (i < length l)%nat) positions →
  ∃ out, iloc l positions = Ok out
         ∧ Forall2 (λ i a, l !! i = Some a) positions out.
Proof.
  induction 1 as [|i positions Hi _ (out & IH & Hout)]; simpl.
  - exists []. split; [done|constructor].
  - apply lookup_lt_is_Some in Hi as [a Ha].
    exists (a :: out). unfold iloc in *. simpl. unfold_result.
    unfold index in *. rewrite Ha, IH. split; [done|by constructor].
Qed.

(** A trait is in the index exactly when its row can be read. *)
Lemma in_index_loc trait self :
  in_index trait self = true ↔ is_Some (loc trait self).
Proof.
  unfold in_index, loc. rewrite bool_decide_eq_true.
  induction (LOD_scores self) as [|[t r] rows IH]; simpl.
  - split; [by intros ?%elem_of_nil|by intros [? ?]].
  - rewrite elem_of_cons. destruct (decide (t = trait)) as [->|Hne]; simpl.
    + split; [by eauto|by left].
    + rewrite IH. destruct (list_find _ rows) as [[? ?]|]; simpl;
        split; try (by eauto); try (by intros [? ?]);
        intros [?|?]; by eauto.
Qed.

Lemma peak_indices_spec row threshold i :
  i ∈ peak_indices row threshold
  ↔ local_maximum (values row) i ∧ (threshold <= item (values row) i)%Q.
Proof.
  unfold peak_indices.
  rewrite list_elem_of_filter, geb_le, elem_of_find_local_maxima. tauto.
Qed.

Lemma peak_indices_sorted row threshold :
  StronglySorted lt (peak_indices row threshold).
Proof.
  unfold peak_indices. apply StronglySorted_lt_filter.
  rewrite find_local_maxima_filter.
  apply StronglySorted_lt_filter, StronglySorted_lt_seq.
Qed.


Lemma threshold_in_force_given quantile t row :
  ¬ (t == 0)%Q → threshold_in_force quantile (Some t) row = t.
Proof.
  unfold threshold_in_force. simpl. intros H.
  destruct (Qeq_bool t 0) eqn:E; [|done]. by apply Qeq_bool_iff in E.
Qed.

(** A run of [get_peak_local_max] on a trait of the study reads the
    scores and the markers at the positions of [peak_indices], for the
    threshold in force. *)
Lemma get_peak_local_max_run quantile self trait threshold row :
  loc trait self = Some row →
  (length row ≤ length (markers self))%nat →
  let positions :=
    peak_indices (abs_series row)
                 (threshold_in_force quantile threshold (abs_series row)) in
  ∃ peak_LOD peak_markers,
    get_peak_local_max quantile self trait threshold
    = Ok (Some peak_LOD, Some peak_markers)
    ∧ Forall2 (λ i p, abs_series row !! i = Some p) positions peak_LOD
    ∧ Forall2 (λ i m, markers self !! i = Some m) positions peak_markers.
Proof.
  intros Hloc Hlen positions.
  assert (Forall (λ i, (i < length row)%nat) positions) as Hpos.
  { apply Forall_forall. intros i [[Hi _] _]%peak_indices_spec.
    unfold values, abs_series in Hi. rewrite !length_fmap in Hi. lia. }
  destruct (iloc_total (abs_series row) positions) as (peak_LOD & HL & HL2).
  { unfold abs_series. by rewrite length_fmap. }
  destruct (iloc_total (markers self) positions) as (peak_markers & HM & HM2).
  { eapply Forall_impl; [exact Hpos|]. simpl. lia. }
  exists peak_LOD, peak_markers. split; [|done].
  unfold get_peak_local_max.
  assert (in_index trait self = true) as -> by (apply in_index_loc; eauto).
  rewrite Hloc. fold (threshold_in_force quantile threshold (abs_series row)).
  fold positions. unfold_result. by rewrite HL, HM.
Qed.

(** C4. Local-maximum peaks: for the first row of the LOD scores
    labelled with the trait, [get_peak_local_max] takes absolute values
    and returns the scores and markers at exactly the positions [i] with
    1 <= i <= len-2 whose score exceeds both neighbours and reaches the
    threshold in force (the argument, or the 95th percentile of the
    absolute scores when it is left out or zero), in ascending order of
    position; boundary positions are never among them, and for a
    monotonic sequence there are none. *)
Theorem get_peak_local_max_exact quantile self trait threshold k row :
  LOD_scores self !! k = Some (trait, row) →
  (∀ j r, (j < k)%nat → LOD_scores self !! j = Some r → r.1 ≠ trait) →
  (length row ≤ length (markers self))%nat →
  let scores := (λ p, Qabs p.2) <$> row in
  let th := match threshold with
            | Some t => if Qeq_bool t 0 then quantile scores (95 # 100) else t
            | None => quantile scores (95 # 100)
            end in
  ∃ positions peak_LOD peak_markers,
    get_peak_local_max quantile self trait threshold
    = Ok (Some peak_LOD, Some peak_markers)
    ∧ Forall2 (λ i p, ∃ label x, row !! i = Some (label, x)
                                 ∧ p = (label, Qabs x))
              positions peak_LOD
    ∧ Forall2 (λ i m, markers self !! i = Some m) positions peak_markers
    ∧ StronglySorted lt positions
    ∧ (∀ i, i ∈ positions
            ↔ (1 ≤ i ≤ length scores - 2)%nat
              ∧ ∃ a b c,
                  scores !! (i - 1)%nat = Some a
                  ∧ scores !! i = Some b
                  ∧ scores !! (i + 1)%nat = Some c
                  ∧ (a < b)%Q ∧ (c < b)%Q ∧ (th <= b)%Q)
    ∧ (monotonic row.*2 ∨ monotonic scores → positions = []).
Proof.
  intros Hk Hfirst Hlen scores th.
  assert (loc trait self = Some row) as Hloc.
  { unfold loc.
    assert (list_find (λ r, r.1 = trait) (LOD_scores self)
            = Some (k, (trait, row))) as ->; [|done].
    apply list_find_Some. split_and!; [done|done|].
    intros j y Hy Hj. by apply (Hfirst j y). }
  assert (scores = values (abs_series row)) as Hscores.
  { unfold scores, values, abs_series. by rewrite <- list_fmap_compose. }
  assert (th = threshold_in_force quantile threshold (abs_series row)) as Hth.
  { unfold th, threshold_in_force. rewrite <- Hscores. by destruct threshold. }
  destruct (get_peak_local_max_run quantile self trait threshold row Hloc Hlen)
    as (peak_LOD & peak_markers & Hrun & HL & HM).
  rewrite <- Hth in HL, HM.
  exists (peak_indices (abs_series row) th), peak_LOD, peak_markers.
  split_and!; try done.
  - eapply Forall2_impl; [exact HL|]. intros i p Hp. simpl in Hp.
    assert (abs_series row !! i = (λ p, (p.1, Qabs p.2)) <$> row !! i) as E
      by apply list_lookup_fmap.
    rewrite E in Hp.
    apply fmap_Some in Hp as ([label x] & Hrow & ->). by exists label, x.
  - apply peak_indices_sorted.
  - intros i. rewrite peak_indices_spec, <- Hscores. unfold local_maximum.
    split.
    + intros (((Hlo & Hhi) & Hl & Hr) & Ht). split; [lia|].
      exists (item scores (i - 1)), (item scores i), (item scores (i + 1)).
      split_and!; try done; apply lookup_item; lia.
    + intros (Hi & a & b & c & Ha & Hb & Hc & Hab & Hcb & Ht).
      pose proof (lookup_lt_Some _ _ _ Hc) as Hlt.
      rewrite (item_lookup _ _ _ Ha), (item_lookup _ _ _ Hb),
        (item_lookup _ _ _ Hc).
      split_and!; try done; lia.
  - intros Hmono. apply elem_of_nil_inv. intros i Hi.
    apply peak_indices_spec in Hi as [Hi _]. rewrite values_abs_series in Hi.
    eapply monotonic_no_local_maximum; [|exact Hi].
    rewrite Hscores, values_abs_series in Hmono. exact Hmono.
Qed.


(** C9. Unknown trait: for a trait name that is not in the index of the
    LOD scores, [get_peak] and [get_peak_local_max] return the pair
    [(None, None)]: neither empty containers nor an exception. *)
Theorem unknown_trait_returns_none_pair quantile self trait threshold :
  trait ∉ (LOD_scores self).*1 →
  get_peak quantile self trait threshold = (None, None)
  ∧ get_peak_local_max quantile self trait threshold = Ok (None, None).
Proof.
  intros Hnot. unfold get_peak, get_peak_local_max, in_index.
  by rewrite bool_decide_false.
Qed.

(** A known trait without a peak is told apart from an unknown trait:
    it yields empty containers. *)
Lemma known_trait_returns_containers quantile self trait threshold :
  trait ∈ (LOD_scores self).*1 →
  ∃ peak_LOD peak_markers,
    get_peak quantile self trait threshold
    = (Some peak_LOD, Some peak_markers).
Proof.
  intros Hin. unfold get_peak.
  assert (in_index trait self = true) as Hidx
    by (by apply bool_decide_eq_true).
  rewrite Hidx. apply in_index_loc in Hidx as [row ->]. by eauto.
Qed.

(** The scores of the specification, [1, 5, 2, 9, 3, 7, 1] in absolute
    value: the local maxima are at positions 1, 3 and 5, the default
    threshold is 8.4 and keeps position 3 only. *)
Example sample_local_maxima :
  find_local_maxima (values (abs_series Sample.lod_row)) = [1; 3; 5]%nat.
Proof. vm_compute. reflexivity. Qed.

Example sample_default_threshold :
  threshold_in_force quantile_linear None (abs_series Sample.lod_row)
  = (42 # 5)%Q.
Proof. vm_compute. reflexivity. Qed.

Example sample_peaks :
  get_peak_local_max quantile_linear Sample.study "trait_1" None
  = Ok (Some [("m4", 9%Q)],
        Some [mk_marker (CStr "m4") [CInt 1; CInt 200000]])
  ∧ get_peak_local_max quantile_linear Sample.study "trait_1" (Some 4%Q)
    = Ok (Some [("m2", 5%Q); ("m4", 9%Q); ("m6", 7%Q)],
          Some [mk_marker (CStr "m2") [CInt 1; CInt 60000];
                mk_marker (CStr "m4") [CInt 1; CInt 200000];
                mk_marker (CStr "m6") [CInt 1; CInt 400000]]).
Proof. vm_compute. split; reflexivity. Qed.

Lemma get_peak_local_max_exact_witness :
  let scores := (λ p, Qabs p.2) <$> Sample.lod_row in
  let th := quantile_linear scores (95 # 100) in
  ∃ positions peak_LOD peak_markers,
    get_peak_local_max quantile_linear Sample.study "trait_1" None
    = Ok (Some peak_LOD, Some peak_markers)
    ∧ Forall2 (λ i p, ∃ label x, Sample.lod_row !! i = Some (label, x)
                                 ∧ p = (label, Qabs x))
              positions peak_LOD
    ∧ Forall2 (λ i m, markers Sample.study !! i = Some m)
              positions peak_markers
    ∧ StronglySorted lt positions
    ∧ (∀ i, i ∈ positions
            ↔ (1 ≤ i ≤ length scores - 2)%nat
              ∧ ∃ a b c,
                  scores !! (i - 1)%nat = Some a
                  ∧ scores !! i = Some b
                  ∧ scores !! (i + 1)%nat = Some c
                  ∧ (a < b)%Q ∧ (c < b)%Q ∧ (th <= b)%Q)
    ∧ (monotonic Sample.lod_row.*2 ∨ monotonic scores → positions = []).
Proof.
  apply (get_peak_local_max_exact quantile_linear Sample.study "trait_1" None
           0 Sample.lod_row).
  - reflexivity.
  - intros j r Hj. lia.
  - vm_compute. lia.
Defined.


Lemma unknown_trait_returns_none_pair_witness :
  get_peak quantile_linear Sample.study "trait_2" None = (None, None)
  ∧ get_peak_local_max quantile_linear Sample.study "trait_2" None
    = Ok (None, None).
Proof.
  apply (unknown_trait_returns_none_pair quantile_linear Sample.study
           "trait_2" None).
  apply (bool_decide_unpack _). vm_compute. exact I.
Defined.

End QTLFacts.

(** ** The remote lookups *)
Module KeggFacts.

Import Kegg.

Lemma fetch_count_app tr1 tr2 :
  fetch_count (tr1 ++ tr2) = (fetch_count tr1 + fetch_count tr2)%nat.
Proof. unfold fetch_count. by rewrite filter_app, length_app. Qed.

Lemma fetch_count_replicate n url :
  fetch_count (replicate n (Fetch url)) = n.
Proof.
  induction n as [|n IH]; [done|].
  simpl. unfold fetch_count in *. rewrite filter_cons. simpl.
  by rewrite IH.
Qed.

Lemma printed_failures_app tr1 tr2 :
  printed_failures (tr1 ++ tr2)
  = (printed_failures tr1 ++ printed_failures tr2)%list.
Proof. unfold printed_failures. apply omap_app. Qed.

Lemma printed_failures_fetches n url :
  printed_failures (replicate n (Fetch url)) = [].
Proof. induction n as [|n IH]; [done|]. simpl. exact IH. Qed.

Section WithService.

Variable net : nat → string → response.
Variable re_compile : string → option (string → bool).

(** The retry loop of Pathways.py against an address that never answers:
    every remaining try is spent and nothing else happens. *)
Lemma retry_while_fails remaining url response tr :
  always_fails net url →
  status_code response ≠ 200%Z →
  ∃ response',
    retry_while net remaining url response tr
    = (Ok response', (tr ++ replicate remaining (Fetch url))%list)
    ∧ status_code response' ≠ 200%Z.
Proof.
  intros Hnet. revert response tr.
  induction remaining as [|remaining IH]; intros response tr Hresp; simpl.
  - exists response. by rewrite app_nil_r.
  - apply Z.eqb_neq in Hresp as Hb. rewrite Hb. simpl.
    unfold_io. unfold requests_get.
    destruct (IH (net (fetch_count tr) url) (tr ++ [Fetch url])%list (Hnet _))
      as (response' & Hrun & Hfail).
    exists response'. rewrite Hrun. split; [|done].
    by rewrite <- app_assoc.
Qed.

(** One request and three more tries, four in all, without a pause. *)
Lemma get_retrying_fails url tr :
  always_fails net url →
  ∃ response,
    get_retrying net url tr = (Ok response, (tr ++ replicate 4 (Fetch url))%list)
    ∧ status_code response ≠ 200%Z.
Proof.
  intros Hnet. unfold get_retrying. unfold_io. unfold requests_get.
  pose proof (Hnet (fetch_count tr)) as Hfirst.
  apply Z.eqb_neq in Hfirst as Hb. rewrite Hb. cbn [negb].
  destruct (retry_while_fails 3 url (net (fetch_count tr) url)
              (tr ++ [Fetch url])%list Hnet Hfirst) as (response & Hrun & Hfail).
  exists response. rewrite Hrun. split; [|done].
  by rewrite <- app_assoc.
Qed.

(** A request that is answered at once is not repeated. *)
Lemma get_retrying_succeeds url tr :
  status_code (net (fetch_count tr) url) = 200%Z →
  get_retrying net url tr
  = (Ok (net (fetch_count tr) url), (tr ++ [Fetch url])%list).
Proof.
  intros H. unfold get_retrying. unfold_io. unfold requests_get.
  by rewrite H.
Qed.

(** The compound lookup against a search address that never answers:
    four requests, then the empty list. *)
Lemma get_kegg_pathways_fails compound_name tr :
  always_fails net (search_url compound_name) →
  get_kegg_pathways net re_compile compound_name tr
  = (Ok EmptyList,
     (tr ++ replicate 4 (Fetch (search_url compound_name)))%list).
Proof.
  intros Hnet. unfold get_kegg_pathways. unfold_io.
  destruct (get_retrying_fails _ tr Hnet) as (response & Hrun & Hfail).
  fold (search_url compound_name). rewrite Hrun.
  apply Z.eqb_neq in Hfail. by rewrite Hfail.
Qed.

(** [get_response] against an address that never answers: every try is a
    request, a message and a pause of one second. *)
Lemma get_response_loop_fails remaining url tr :
  always_fails net url →
  ∃ messages,
    length messages = remaining
    ∧ get_response_loop net remaining url tr
      = (Ok None,
         (tr ++ (m ← messages; [Fetch url; Print m; Sleep 1]))%list).
Proof.
  intros Hnet. revert tr.
  induction remaining as [|remaining IH]; intros tr; simpl.
  - exists []. simpl. by rewrite app_nil_r.
  - unfold_io. unfold requests_get.
    pose proof (Hnet (fetch_count tr)) as Hfirst.
    apply Z.eqb_neq in Hfirst. rewrite Hfirst.
    match goal with
    | |- context [get_response_loop net remaining url ?t] =>
        destruct (IH t) as (messages & Hlen & Hrun)
    end.
    eexists (_ :: messages). split; [by rewrite <- Hlen|].
    rewrite Hrun. simpl. by rewrite <- !app_assoc.
Qed.

(** The enzyme lookup sends one request and does not try again. *)
Lemma get_enzymes_for_gene_fails gene_id tr :
  always_fails net ("http://rest.kegg.jp/link/enzyme/" +:+ gene_id) →
  get_enzymes_for_gene net gene_id tr
  = (Ok None,
     (tr ++ [Fetch ("http://rest.kegg.jp/link/enzyme/" +:+ gene_id);
             Print ("Failed to retrieve enzyme information for gene: "
                    +:+ gene_id)])%list).
Proof.
  intros Hnet. unfold get_enzymes_for_gene. unfold_io. unfold requests_get.
  pose proof (Hnet (fetch_count tr)) as Hfirst.
  apply Z.eqb_neq in Hfirst. rewrite Hfirst. by rewrite <- app_assoc.
Qed.

(** *** No overview pathway is returned *)

Lemma not_overview_iff pathway_id :
  not_overview pathway_id = true
  ↔ startswith "path:map011" pathway_id = false
    ∧ startswith "path:map012" pathway_id = false.
Proof.
  unfold not_overview. by rewrite andb_true_iff, !negb_true_iff.
Qed.

Lemma collect_pathways_not_overview resp_lines pathways :
  Forall (λ p, not_overview p = true) pathways →
  Forall (λ p, not_overview p = true) (collect_pathways resp_lines pathways).
Proof.
  revert pathways.
  induction resp_lines as [|r_line rest IH]; intros pathways Hacc; simpl.
  - done.
  - destruct (contains_char tab r_line); [|by apply IH].
    match goal with
    | |- context [if ?b then _ else _] => destruct b eqn:Hkeep
    end; [|by apply IH].
    apply IH. apply Forall_app. split; [done|].
    constructor; [exact Hkeep|constructor].
Qed.

Lemma lines_loop_not_overview pattern lines todo pathways tr v tr' :
  Forall (λ p, not_overview p = true) pathways →
  lines_loop net pattern lines todo pathways tr = (Ok v, tr') →
  ∀ p, p ∈ ids_of v → not_overview p = true.
Proof.
  revert pathways tr.
  induction todo as [|line rest IH]; intros pathways tr Hacc; simpl.
  - unfold_io. intros [= <- _] p Hp. simpl in Hp.
    apply elem_of_list_to_set in Hp.
    by eapply Forall_forall in Hacc.
  - destruct (split tab line) as [|compound_id [|compound_names [|? ?]]];
      try (unfold_io; done).
    destruct (pattern compound_names); [|by apply IH].
    unfold_io.
    destruct (get_retrying net _ tr) as [[response|e] tr1]; [|done].
    destruct (negb (status_code response =? 200)%Z).
    + intros [= <- _] p Hp. simpl in Hp.
      apply elem_of_list_to_set in Hp.
      by eapply Forall_forall in Hacc.
    + destruct (negb (bool_decide (lines = []))); [|by apply IH].
      apply IH. by apply collect_pathways_not_overview.
Qed.

Lemma get_kegg_pathways_not_overview compound_name tr v :
  (get_kegg_pathways net re_compile compound_name tr).1 = Ok v →
  ∀ p, p ∈ ids_of v → not_overview p = true.
Proof.
  unfold get_kegg_pathways. unfold_io.
  destruct (get_retrying net _ tr) as [[response|e] tr1]; [|done].
  destruct (negb (status_code response =? 200)%Z);
    [by intros [= <-] p Hp%elem_of_empty|].
  destruct (bool_decide _); [by intros [= <-] p Hp%elem_of_empty|].
  destruct (re_compile _) as [pattern|]; [|done].
  destruct (lines_loop _ _ _ _ _ _) as [r tr'] eqn:Hloop. simpl.
  intros ->. by eapply lines_loop_not_overview.
Qed.

(** [get_response] always returns. *)
Lemma get_response_loop_total remaining url tr :
  ∃ r tr', get_response_loop net remaining url tr = (Ok r, tr').
Proof.
  revert tr. induction remaining as [|remaining IH]; intros tr; simpl.
  - unfold_io. by eauto.
  - unfold_io. unfold requests_get.
    destruct (status_code _ =? 200)%Z; [by eauto|]. apply IH.
Qed.

Lemma genes_loop_not_overview pathway_list genes tr :
  (∀ p, p ∈ dom genes → not_overview p = true) →
  ∃ genes' tr',
    genes_loop net pathway_list genes tr = (Ok genes', tr')
    ∧ ∀ p, p ∈ dom genes' → not_overview p = true.
Proof.
  revert genes tr.
  induction pathway_list as [|pathway_id rest IH]; intros genes tr Hdom; simpl.
  - unfold_io. by eauto.
  - destruct (startswith "path:map011" pathway_id
              || startswith "path:map012" pathway_id) eqn:Hskip.
    + unfold_io. by apply IH.
    + apply orb_false_iff in Hskip as [H1 H2].
      assert (not_overview pathway_id = true) as Hkeep
        by (by apply not_overview_iff).
      unfold_io. unfold get_response. simpl Nat.sub.
      match goal with
      | |- context [get_response_loop net 3 ?u tr] =>
          destruct (get_response_loop_total 3 u tr) as (r & tr1 & ->)
      end.
      destruct r as [response|]; [|by apply IH].
      destruct (bool_decide _); apply IH; intros p.
      * rewrite dom_delete_L, dom_insert_L.
        intros [[->%elem_of_singleton|Hp]%elem_of_union _]%elem_of_difference;
          [done|by apply Hdom].
      * rewrite dom_insert_L.
        intros [->%elem_of_singleton|Hp]%elem_of_union; [done|by apply Hdom].
Qed.

(** Every compound of a round that ends up in [path_dict] carries
    pathway ids without an overview prefix. *)
Lemma process_compounds_not_overview compounds path_dict failed tr out tr' :
  (∀ c ps p, path_dict !! c = Some ps → p ∈ ps → not_overview p = true) →
  process_compounds net re_compile compounds path_dict failed tr
  = (Ok out, tr') →
  ∀ c ps p, out.1 !! c = Some ps → p ∈ ps → not_overview p = true.
Proof.
  revert path_dict failed tr.
  induction compounds as [|kegg_comp rest IH]; intros path_dict failed tr Hpd;
    simpl.
  - unfold_io. by intros [= <- _].
  - unfold_io.
    destruct (get_kegg_pathways net re_compile kegg_comp tr)
      as [[v|e] tr1] eqn:Hget; [|done].
    destruct (truthy v); [|by apply IH].
    apply IH. intros c ps p Hc Hp.
    destruct (decide (kegg_comp = c)) as [->|Hne].
    + rewrite lookup_insert_eq in Hc. injection Hc as <-.
      eapply (get_kegg_pathways_not_overview c tr v); [by rewrite Hget|].
      destruct v; simpl in *; [by apply not_elem_of_nil in Hp|].
      by apply elem_of_elements.
    + rewrite lookup_insert_ne in Hc by done. by eapply Hpd.
Qed.

(** *** A service that never answers *)

Lemma genes_loop_fails pathway_list genes tr :
  (∀ u, always_fails net u) →
  ∃ tr', genes_loop net pathway_list genes tr = (Ok genes, tr').
Proof.
  intros Hnet. revert tr.
  induction pathway_list as [|pathway_id rest IH]; intros tr; simpl.
  - unfold_io. by eauto.
  - destruct (_ || _).
    + unfold_io. apply IH.
    + unfold_io. unfold get_response. simpl Nat.sub.
      match goal with
      | |- context [get_response_loop net 3 ?u tr] =>
          destruct (get_response_loop_fails 3 u tr (Hnet u))
            as (messages & _ & ->)
      end.
      apply IH.
Qed.

Lemma process_compounds_fail compounds path_dict failed tr :
  (∀ u, always_fails net u) →
  ∃ tr',
    process_compounds net re_compile compounds path_dict failed tr
    = (Ok (path_dict, failed ∪ list_to_set compounds), (tr ++ tr')%list)
    ∧ printed_failures tr' = [].
Proof.
  intros Hnet. revert failed tr.
  induction compounds as [|kegg_comp rest IH]; intros failed tr; simpl.
  - unfold_io. exists []. rewrite app_nil_r.
    by rewrite (right_id_L ∅ (∪)).
  - unfold_io. rewrite get_kegg_pathways_fails by apply Hnet. simpl.
    match goal with
    | |- context [process_compounds net re_compile rest path_dict ?f ?t] =>
        destruct (IH f t) as (tr' & -> & Hp)
    end.
    eexists. split.
    + f_equal; [|by rewrite <- !app_assoc].
      do 2 f_equal. by rewrite <- (assoc_L (∪)).
    + rewrite !printed_failures_app. simpl. exact Hp.
Qed.

(** Against a service that never answers, a round leaves the set to
    process as the retry set and counts one more failure. *)
Lemma round_fail traits st tr :
  (∀ u, always_fails net u) →
  let todo := if run_for_all_traits st then traits else failed_compounds st in
  ∃ tr',
    round net re_compile traits st tr
    = (Ok {| path_dict := path_dict st; failed_compounds := todo;
             consecutive_failures := consecutive_failures st + 1;
             run_for_all_traits := false |}, (tr ++ tr')%list)
    ∧ printed_failures tr' = [(consecutive_failures st + 1)%Z].
Proof.
  intros Hnet todo. unfold round. fold todo. unfold_io.
  destruct (process_compounds_fail (elements todo) (path_dict st) ∅ tr Hnet)
    as (tr' & -> & Hp).
  simpl. rewrite list_to_set_elements_L.
  rewrite (left_id_L ∅ (∪)).
  rewrite bool_decide_true by done.
  eexists. split; [by rewrite <- !app_assoc|].
  by rewrite printed_failures_app, Hp.
Qed.

(** The loop then runs until the counter has passed 3: from a counter of
    [4 - n] it makes [n] more rounds. *)
Lemma round_loop_fail traits n fuel st tr :
  (∀ u, always_fails net u) →
  (n ≤ fuel)%nat → (n ≤ 4)%nat →
  consecutive_failures st = (4 - Z.of_nat n)%Z →
  ∃ tr',
    round_loop net re_compile fuel traits st tr
    = (Ok (Some (match n with
                 | O => st
                 | S _ =>
                     {| path_dict := path_dict st;
                        failed_compounds :=
                          if run_for_all_traits st then traits
                          else failed_compounds st;
                        consecutive_failures := 4;
                        run_for_all_traits := false |}
                 end)), (tr ++ tr')%list)
    ∧ printed_failures tr'
      = (λ k, (consecutive_failures st + Z.of_nat k)%Z) <$> seq 1 n.
Proof.
  intros Hnet. revert fuel st tr.
  induction n as [|n IH]; intros fuel st tr Hfuel Hn Hcf.
  - exists []. rewrite app_nil_r. split; [|done].
    destruct fuel; simpl; rewrite Hcf; reflexivity.
  - destruct fuel as [|fuel]; [lia|]. simpl round_loop.
    assert ((consecutive_failures st <=? 3)%Z = true) as ->
      by (apply Z.leb_le; lia).
    unfold_io.
    destruct (round_fail traits st tr Hnet) as (tr1 & -> & Hp1).
    match goal with
    | |- context [round_loop net re_compile fuel traits ?s ?t] =>
        destruct (IH fuel s t) as (tr2 & -> & Hp2);
          [lia|lia|simpl; lia|]
    end.
    exists (tr1 ++ tr2)%list. split.
    + rewrite <- app_assoc. do 3 f_equal.
      destruct n; simpl; [|done]. f_equal. simpl in Hcf. lia.
    + rewrite printed_failures_app, Hp1, Hp2. simpl. f_equal.
      rewrite <- (fmap_S_seq 1), <- list_fmap_compose.
      apply list_fmap_ext. intros _ k _. simpl. lia.
Qed.

(** Against a service that never answers, the script makes exactly four
    rounds, for any list of traits and any fuel of at least four. *)
Lemma main_all_fail fuel trait_column tr :
  (∀ u, always_fails net u) →
  (4 ≤ fuel)%nat →
  ∃ tr',
    main net re_compile fuel trait_column tr
    = (Ok (Some (list_to_set trait_column)), (tr ++ tr')%list)
    ∧ printed_failures tr' = [1; 2; 3; 4]%Z.
Proof.
  intros Hnet Hfuel. unfold main. unfold_io.
  match goal with
  | |- context [round_loop net re_compile fuel ?S ?s ?t] =>
      destruct (round_loop_fail S 4 fuel s t Hnet) as (tr1 & -> & Hp);
        [done|done|done|]
  end.
  simpl. eexists. split; [by rewrite <- !app_assoc|].
  rewrite !printed_failures_app, Hp. reflexivity.
Qed.

(** *** A link lookup that fails in the middle of the loop *)

Lemma lines_loop_link_fails pattern lines line post pathways
    compound_id compound_names tr :
  split tab line = [compound_id; compound_names] →
  pattern compound_names = true →
  always_fails net (link_url compound_id) →
  lines_loop net pattern lines (line :: post) pathways tr
  = (Ok (PathwaySet (list_to_set pathways)),
     (tr ++ replicate 4 (Fetch (link_url compound_id)))%list).
Proof.
  intros Hsplit Hmatch Hnet. simpl lines_loop. rewrite Hsplit, Hmatch.
  unfold_io. fold (link_url compound_id).
  destruct (get_retrying_fails _ tr Hnet) as (response & -> & Hfail).
  apply Z.eqb_neq in Hfail. by rewrite Hfail.
Qed.

(** A compound whose lookup returns a non-empty set is recorded in
    [path_dict] and is not added to the retry set. *)
Lemma process_compounds_success kegg_comp rest path_dict failed tr s tr1 :
  get_kegg_pathways net re_compile kegg_comp tr = (Ok (PathwaySet s), tr1) →
  s ≠ ∅ →
  process_compounds net re_compile (kegg_comp :: rest) path_dict failed tr
  = process_compounds net re_compile rest
      (<[kegg_comp := elements s]> path_dict) failed tr1.
Proof.
  intros Hget Hs. simpl process_compounds. unfold_io. rewrite Hget.
  simpl. by rewrite bool_decide_false.
Qed.

(** The retry set of a round grows by processed compounds only. *)
Lemma process_compounds_failed_bound compounds path_dict failed tr out tr' :
  process_compounds net re_compile compounds path_dict failed tr
  = (Ok out, tr') →
  out.2 ⊆ failed ∪ list_to_set compounds.
Proof.
  revert path_dict failed tr.
  induction compounds as [|kegg_comp rest IH]; intros path_dict failed tr;
    simpl.
  - unfold_io. intros [= <- _]. simpl. by rewrite (right_id_L ∅ (∪)).
  - unfold_io.
    destruct (get_kegg_pathways net re_compile kegg_comp tr)
      as [[v|e] tr1]; [|done].
    destruct (truthy v); intros H%IH.
    + etrans; [exact H|]. apply union_mono_l, union_subseteq_r.
    + by rewrite (assoc_L (∪)).
Qed.

End WithService.

(** C6. Pathway filtering: no operation that returns pathway ids returns
    one that starts with a reserved overview prefix, [path:map011] or
    [path:map012]: not the set of [get_kegg_pathways], whenever it
    returns, and not a key of the dict of [get_genes_for_pathways], which
    always returns. *)
Theorem no_overview_pathway_returned net re_compile compound_name
    pathway_list tr1 tr2 :
  (∀ v, (get_kegg_pathways net re_compile compound_name tr1).1 = Ok v →
        ∀ p, p ∈ ids_of v →
             startswith "path:map011" p = false
             ∧ startswith "path:map012" p = false)
  ∧ (∃ genes, (get_genes_for_pathways net pathway_list tr2).1 = Ok genes
              ∧ ∀ p, p ∈ dom genes →
                     startswith "path:map011" p = false
                     ∧ startswith "path:map012" p = false).
Proof.
  split.
  - intros v Hv p Hp. apply not_overview_iff.
    by eapply get_kegg_pathways_not_overview.
  - unfold get_genes_for_pathways.
    destruct (genes_loop_not_overview net pathway_list ∅ tr2)
      as (genes & tr' & Hrun & Hdom); [set_solver|].
    exists genes. rewrite Hrun. split; [done|].
    intros p Hp. by apply not_overview_iff, Hdom.
Qed.

Example overview_pathways_filtered :
  (get_kegg_pathways Sample.net_partial Sample.literal_engine "Raffinose" []).1
  = Ok (PathwaySet {["path:map00052"; "path:map02010"]})
  ∧ (get_genes_for_pathways
       (λ _ _, Sample.ok (Sample.unlines
                            [Sample.tsv ["path:ath00052"; "ath:AT1G01010"]]))
       ["path:map00052"; "path:map01100"; "path:map01200"] []).1
    = Ok {["path:map00052" := ["ath:AT1G01010"]]}.
Proof. vm_compute. split; reflexivity. Qed.

Lemma no_overview_pathway_returned_witness :
  (startswith "path:map011" "path:map00052" = false
   ∧ startswith "path:map012" "path:map00052" = false)
  ∧ ∃ genes : gmap string (list string),
      ∀ p, p ∈ dom genes →
           startswith "path:map011" p = false
           ∧ startswith "path:map012" p = false.
Proof.
  destruct (no_overview_pathway_returned Sample.net_partial
              Sample.literal_engine "Raffinose"
              ["path:map00052"; "path:map01100"] [] [])
    as [Hset (genes & _ & Hdict)].
  split.
  - apply (Hset (PathwaySet {["path:map00052"; "path:map02010"]})).
    + vm_compute. reflexivity.
    + apply (bool_decide_unpack _). vm_compute. exact I.
  - exists genes. exact Hdict.
Defined.

(** C2. Retry policy, as the code has it: against a service that never
    answers with success, [get_kegg_pathways] sends its request four
    times (once, then three more tries, without a pause) and returns the
    empty list; [get_response] waits one second after every failed
    request, gives up after at most four requests and returns [None], so
    that [get_genes_for_pathways] returns an empty dict;
    [get_enzymes_for_gene] sends one request, does not try again and
    returns [None].  None of them raises. *)
Theorem lookups_against_failing_service net re_compile compound_name
    pathway_list url gene_id tr :
  (∀ u, always_fails net u) →
  get_kegg_pathways net re_compile compound_name tr
  = (Ok EmptyList,
     (tr ++ replicate 4 (Fetch (search_url compound_name)))%list)
  ∧ (∃ messages,
       (1 ≤ length messages ≤ 4)%nat
       ∧ get_response net url tr
         = (Ok None,
            (tr ++ (m ← messages; [Fetch url; Print m; Sleep 1]))%list))
  ∧ (get_genes_for_pathways net pathway_list tr).1 = Ok ∅
  ∧ get_enzymes_for_gene net gene_id tr
    = (Ok None,
       (tr ++ [Fetch ("http://rest.kegg.jp/link/enzyme/" +:+ gene_id);
               Print ("Failed to retrieve enzyme information for gene: "
                      +:+ gene_id)])%list).
Proof.
  intros Hnet. split_and!.
  - by apply get_kegg_pathways_fails.
  - unfold get_response. simpl Nat.sub.
    destruct (get_response_loop_fails net 3 url tr (Hnet url))
      as (messages & Hlen & Hrun).
    exists messages. split; [lia|done].
  - unfold get_genes_for_pathways.
    by destruct (genes_loop_fails net pathway_list ∅ tr Hnet) as (tr' & ->).
  - by apply get_enzymes_for_gene_fails.
Qed.

Lemma lookups_against_failing_service_witness :
  get_kegg_pathways Sample.net_down Sample.literal_engine "Citric acid" []
  = (Ok EmptyList,
     ([] ++ replicate 4 (Fetch (search_url "Citric acid")))%list)
  ∧ (∃ messages,
       (1 ≤ length messages ≤ 4)%nat
       ∧ get_response Sample.net_down "https://rest.kegg.jp/link/ath/ath00052"
                      []
         = (Ok None,
            ([] ++ (m ← messages;
                    [Fetch "https://rest.kegg.jp/link/ath/ath00052";
                     Print m; Sleep 1]))%list))
  ∧ (get_genes_for_pathways Sample.net_down ["path:map00052"] []).1 = Ok ∅
  ∧ get_enzymes_for_gene Sample.net_down "ath:AT1G06290" []
    = (Ok None,
       ([] ++ [Fetch ("http://rest.kegg.jp/link/enzyme/" +:+ "ath:AT1G06290");
               Print ("Failed to retrieve enzyme information for gene: "
                      +:+ "ath:AT1G06290")])%list).
Proof.
  apply (lookups_against_failing_service Sample.net_down Sample.literal_engine
           "Citric acid" ["path:map00052"]
           "https://rest.kegg.jp/link/ath/ath00052" "ath:AT1G06290" []).
  intros u n. vm_compute. discriminate.
Defined.

(** The claim as stated fails: the enzyme lookup does not send four
    requests to a service that never answers, it sends one; and the
    lookups of [get_kegg_pathways] are not spaced by a pause. *)
Lemma enzyme_lookup_does_not_retry :
  ¬ (∀ gene_id,
       fetch_count (get_enzymes_for_gene Sample.net_down gene_id []).2
       = 4%nat).
Proof.
  intros H. specialize (H "ath:AT1G06290"). vm_compute in H. discriminate.
Qed.

(** What the lookups do against the sample services. *)
Example lookups_sample_counts :
  fetch_count (get_enzymes_for_gene Sample.net_down "ath:AT1G06290" []).2
  = 1%nat
  ∧ fetch_count (get_response Sample.net_down "u" []).2 = 3%nat
  ∧ filter (λ e, is_sleep e = true) (get_response Sample.net_down "u" []).2
    = [Sleep 1; Sleep 1; Sleep 1]
  ∧ fetch_count (get_kegg_pathways Sample.net_down Sample.literal_engine
                                   "Raffinose" []).2 = 4%nat
  ∧ filter (λ e, is_sleep e = true)
           (get_kegg_pathways Sample.net_down Sample.literal_engine
                              "Raffinose" []).2 = []
  ∧ fetch_count
      (get_retrying Sample.net_flaky
                    "http://rest.kegg.jp/find/compound/Raffinose" []).2
    = 3%nat.
Proof. vm_compute. repeat split; reflexivity. Qed.

(** C3. Batch termination, evaluated: with one compound that never
    resolves the loop makes four rounds, each ending with the same
    non-empty retry set, and the counter it prints goes up to 4, not 3;
    with a second compound that resolves in the first round, four rounds
    with the unchanged retry set follow the first.  The last retry set is
    printed at the end in both runs. *)
Theorem round_loop_makes_four_unchanged_rounds :
  (let run := main Sample.net_down Sample.literal_engine 10 ["Raffinose"] [] in
   run.1 = Ok (Some {["Raffinose"]})
   ∧ reports run.2
     = [ AppendJson ∅;
         PrintFailed {["Raffinose"]}; PrintFailures 1; AppendJson ∅;
         PrintFailed {["Raffinose"]}; PrintFailures 2; AppendJson ∅;
         PrintFailed {["Raffinose"]}; PrintFailures 3; AppendJson ∅;
         PrintFailed {["Raffinose"]}; PrintFailures 4; AppendJson ∅;
         PrintFailed {["Raffinose"]} ])
  ∧ (let run := main Sample.net_partial Sample.literal_engine 10
                     ["Raffinose"; "Unobtainium"] [] in
     run.1 = Ok (Some {["Unobtainium"]})
     ∧ printed_failures run.2 = [0; 1; 2; 3; 4]%Z
     ∧ printed_failed run.2 = replicate 6 {["Unobtainium"]}).
Proof. vm_compute. repeat split; reflexivity. Qed.

(** C10. Partial resolution: when, at some line of the search result, the
    link lookup of a matched compound id still fails after its retries,
    [get_kegg_pathways] returns the set of the pathways collected so far
    and does not look at the remaining lines; a returned non-empty set is
    recorded by the round loop like any other, and the compound is not in
    the retry set of the round. *)
Theorem failed_link_returns_collected net re_compile pattern lines line post
    pathways compound_id compound_names tr
    kegg_comp rest path_dict tr0 s tr1 out tr2 :
  split tab line = [compound_id; compound_names] →
  pattern compound_names = true →
  always_fails net (link_url compound_id) →
  get_kegg_pathways net re_compile kegg_comp tr0 = (Ok (PathwaySet s), tr1) →
  s ≠ ∅ →
  kegg_comp ∉ rest →
  process_compounds net re_compile (kegg_comp :: rest) path_dict ∅ tr0
  = (Ok out, tr2) →
  lines_loop net pattern lines (line :: post) pathways tr
  = (Ok (PathwaySet (list_to_set pathways)),
     (tr ++ replicate 4 (Fetch (link_url compound_id)))%list)
  ∧ process_compounds net re_compile (kegg_comp :: rest) path_dict ∅ tr0
    = process_compounds net re_compile rest
        (<[kegg_comp := elements s]> path_dict) ∅ tr1
  ∧ kegg_comp ∉ out.2.
Proof.
  intros Hsplit Hmatch Hnet Hget Hs Hrest Hrun. split_and!.
  - by eapply lines_loop_link_fails.
  - by apply process_compounds_success.
  - rewrite (process_compounds_success net re_compile _ _ _ _ _ _ _ Hget Hs)
      in Hrun.
    apply process_compounds_failed_bound in Hrun.
    intros Hin. apply Hrun in Hin.
    apply elem_of_union in Hin as [Hin|Hin]; [by apply elem_of_empty in Hin|].
    by apply elem_of_list_to_set in Hin.
Qed.

Lemma failed_link_returns_collected_witness :
  let line := Sample.tsv ["cpd:C99999"; "D-Raffinose"] in
  let lines := [Sample.tsv ["cpd:C00492"; "Raffinose; Melitose"]; line] in
  let s : gset string := {["path:map00052"; "path:map02010"]} in
  let tr1 :=
    (Fetch (search_url "Raffinose") :: Fetch (link_url "cpd:C00492")
     :: replicate 4 (Fetch (link_url "cpd:C99999")))%list in
  lines_loop Sample.net_partial (Sample.occurs "Raffinose") lines [line]
             ["path:map00052"; "path:map02010"]
             [Fetch (search_url "Raffinose"); Fetch (link_url "cpd:C00492")]
  = (Ok (PathwaySet
           (list_to_set ["path:map00052"; "path:map02010"])),
     ([Fetch (search_url "Raffinose"); Fetch (link_url "cpd:C00492")]
      ++ replicate 4 (Fetch (link_url "cpd:C99999")))%list)
  ∧ process_compounds Sample.net_partial Sample.literal_engine
                      ["Raffinose"] ∅ ∅ []
    = process_compounds Sample.net_partial Sample.literal_engine []
        (<["Raffinose" := elements s]> ∅) ∅ tr1
  ∧ "Raffinose" ∉ (∅ : gset string).
Proof.
  intros line lines s tr1.
  apply (failed_link_returns_collected Sample.net_partial
           Sample.literal_engine (Sample.occurs "Raffinose") lines line []
           ["path:map00052"; "path:map02010"] "cpd:C99999" "D-Raffinose"
           [Fetch (search_url "Raffinose"); Fetch (link_url "cpd:C00492")]
           "Raffinose" [] ∅ [] s tr1
           (<["Raffinose" := elements s]> ∅, ∅) tr1).
  - vm_compute. reflexivity.
  - vm_compute. reflexivity.
  - intros n. vm_compute. discriminate.
  - vm_compute. reflexivity.
  - apply (bool_decide_unpack _). vm_compute. exact I.
  - apply not_elem_of_nil.
  - vm_compute. reflexivity.
Defined.

(** The sample service whose second link never answers gives the same
    value as the service that answers every link, and the round loop
    ends without a compound to retry. *)
Example partial_result_looks_complete :
  (get_kegg_pathways Sample.net_partial Sample.literal_engine "Raffinose" []).1
  = (get_kegg_pathways Sample.net_full Sample.literal_engine "Raffinose" []).1
  ∧ fetch_count
      (get_kegg_pathways Sample.net_partial Sample.literal_engine
                         "Raffinose" []).2 = 6%nat
  ∧ (main Sample.net_partial Sample.literal_engine 10 ["Raffinose"] []).1
    = Ok (Some ∅).
Proof. vm_compute. repeat split; reflexivity. Qed.

End KeggFacts.

(** ** The enrichment test *)
Module StatTestFacts.

Import StatTest.

(** Every merged row carries the same gene universe, 27533 - 231. *)
Lemma merge_total_genes left right :
  Forall (λ row, Total_Genes row = 27302%Z) (merge left right).
Proof.
  unfold merge. apply Forall_forall. intros row Hrow.
  apply list_elem_of_bind in Hrow as (l & Hrow & _).
  apply list_elem_of_bind in Hrow as (r & Hrow & _).
  apply list_elem_of_singleton in Hrow. by subst row.
Qed.

(** The compounds of the merged rows are those of both tables. *)
Lemma merge_compounds left right row :
  row ∈ merge left right →
  ∃ l r, l ∈ left ∧ r ∈ right
         ∧ fm_Compound r = gc_Compound l
         ∧ Compound row = gc_Compound l
         ∧ mQTL_Gene_Counts row = default 0%Z (gc_mQTL_Gene_Counts l)
         ∧ map_Gene_Counts row = default 0%Z (gc_map_Gene_Counts l)
         ∧ Gene_Count row = default 0%Z (fm_Gene_Count r).
Proof.
  unfold merge. intros Hrow.
  apply list_elem_of_bind in Hrow as (l & Hrow & Hl).
  apply list_elem_of_bind in Hrow as (r & Hrow & Hr).
  apply list_elem_of_filter in Hr as [Hkey Hr].
  apply list_elem_of_singleton in Hrow. subst row.
  exists l, r. by split_and!.
Qed.

(** The merged rows are made from the pairs of a row of the left table
    and a row of the right table with the same compound, in the order of
    the left table. *)
Lemma merge_pairs left right :
  merge left right
  = (λ p : gene_counts_row * matched_row,
       {| Compound := gc_Compound p.1;
          mQTL_Gene_Counts := default 0%Z (gc_mQTL_Gene_Counts p.1);
          map_Gene_Counts := default 0%Z (gc_map_Gene_Counts p.1);
          Gene_Count := default 0%Z (fm_Gene_Count p.2);
          Total_Genes := 27302 |})
    <$> (l ← left;
         r ← filter (λ r, fm_Compound r = gc_Compound l) right;
         [(l, r)]).
Proof.
  unfold merge. induction left as [|l left IH]; [done|].
  rewrite !bind_cons, fmap_app, IH. f_equal.
  induction (filter (λ r, fm_Compound r = gc_Compound l) right)
    as [|r rs IHr]; [done|].
  rewrite !bind_cons, fmap_app, IHr. done.
Qed.

Section WithStatistics.

Variable fisher_exact : table → string → result (Q * Q).

(** While the exact test returns, the loop makes one call per row, on the
    table of the row, and appends one p-value per row. *)
Lemma iterrows_returns todo answered p_values log :
  Forall (λ row, Total_Genes row = 27302%Z) todo →
  Forall2 (answers fisher_exact) (spec_table <$> todo) answered →
  iterrows fisher_exact todo p_values log
  = (Ok (p_values ++ answered)%list,
     (log ++ ((λ t, CallFisherExact t "two-sided") <$> (spec_table <$> todo)))%list).
Proof.
  intros Htodo. revert answered p_values log.
  induction Htodo as [|row todo Hrow _ IH]; intros answered p_values log Hans.
  - inversion Hans; subst. simpl. by rewrite !app_nil_r.
  - rewrite fmap_cons in Hans.
    inversion Hans as [|? p ? ps [oddsratio Hp] Hrest]; subst.
    cbn [iterrows]. rewrite Hrow. fold (spec_table row). rewrite Hp.
    rewrite (IH ps _ _ Hrest), !fmap_cons, <- !app_assoc. reflexivity.
Qed.

(** At the first table for which the exact test raises, the loop ends
    with this exception, the call for this table being the last one. *)
Lemma iterrows_raises todo n t e answered p_values log :
  Forall (λ row, Total_Genes row = 27302%Z) todo →
  (spec_table <$> todo) !! n = Some t →
  Forall2 (answers fisher_exact) (take n (spec_table <$> todo)) answered →
  fisher_exact t "two-sided" = Raise e →
  iterrows fisher_exact todo p_values log
  = (Raise e,
     (log ++ take (S n)
               ((λ t, CallFisherExact t "two-sided") <$> (spec_table <$> todo)))%list).
Proof.
  intros Htodo. revert n answered p_values log.
  induction Htodo as [|row todo Hrow _ IH];
    intros n answered p_values log Hn Hans Hraise; [done|].
  rewrite fmap_cons in Hn, Hans. rewrite !fmap_cons.
  cbn [iterrows]. rewrite Hrow. fold (spec_table row).
  destruct n as [|n].
  - injection Hn as ->. rewrite Hraise. reflexivity.
  - cbn [take] in Hans. simpl in Hn.
    inversion Hans as [|? p ? ps [oddsratio Hp] Hrest]; subst.
    rewrite Hp. rewrite (IH n ps _ _ Hn Hrest Hraise).
    rewrite firstn_cons, <- !app_assoc. reflexivity.
Qed.

End WithStatistics.

(** The calls of the loop are calls of the exact test. *)
Lemma fisher_calls_only (tables : list table) :
  filter (λ c, is_multipletests c = true)
         ((λ t, CallFisherExact t "two-sided") <$> tables) = [].
Proof.
  induction tables as [|t rest IH]; [done|].
  rewrite fmap_cons, filter_cons. simpl. exact IH.
Qed.

(** C7. Enrichment test: the test pairs the rows of the two count tables
    by compound, in the order of the first, and for each pair, in this
    order, asks for a two-sided Fisher exact test of the table
    a = map gene count, b = 27302 - a, c = matched gene count,
    d = mQTL gene count - c, a missing count being zero.  When the exact
    test returns for every table, one Benjamini-Hochberg call on the
    whole vector of p-values follows, and the merged table carries the
    p-values and the adjusted p-values by compound.  When the exact test
    raises for a table, the run ends there with this exception: the
    later tables are not tested and no correction is made. *)
Theorem enrichment_test_in_one_batch fisher_exact multipletests
    gene_counts_df filtered_gene_counts_df :
  let pairs : list (gene_counts_row * matched_row) :=
    l ← gene_counts_df;
    r ← filter (λ r, fm_Compound r = gc_Compound l) filtered_gene_counts_df;
    [(l, r)] in
  let tables : list table :=
    (λ p : gene_counts_row * matched_row,
       let mQTL := default 0%Z (gc_mQTL_Gene_Counts p.1) in
       let map := default 0%Z (gc_map_Gene_Counts p.1) in
       let matched := default 0%Z (fm_Gene_Count p.2) in
       ((map, 27302 - map), (matched, mQTL - matched))%Z) <$> pairs in
  let fisher_calls := (λ t, CallFisherExact t "two-sided") <$> tables in
  let run := statistical_test fisher_exact multipletests
                              gene_counts_df filtered_gene_counts_df in
  (∀ p_values,
     Forall2 (λ t p, ∃ oddsratio,
                fisher_exact t "two-sided" = Ok (oddsratio, p))
             tables p_values →
     run.2 = (fisher_calls ++ [CallMultipletests p_values "fdr_bh"])%list
     ∧ length (filter (λ c, is_multipletests c = true) run.2) = 1%nat
     ∧ match multipletests p_values "fdr_bh" with
       | Ok (reject, adjusted) =>
           ∃ r, run.1 = Ok r
                ∧ Compound <$> rows r = (λ p, gc_Compound p.1) <$> pairs
                ∧ Fisher_Exact_p_value r = p_values
                ∧ Adj_p_value r = adjusted
       | Raise e => run.1 = Raise e
       end)
  ∧ (∀ n t e p_values,
       tables !! n = Some t →
       Forall2 (λ t p, ∃ oddsratio,
                  fisher_exact t "two-sided" = Ok (oddsratio, p))
               (take n tables) p_values →
       fisher_exact t "two-sided" = Raise e →
       run = (Raise e, take (S n) fisher_calls)
       ∧ filter (λ c, is_multipletests c = true) run.2 = []).
Proof.
  intros pairs tables fisher_calls run.
  assert (tables
          = spec_table <$> merge gene_counts_df filtered_gene_counts_df)
    as Htables.
  { rewrite merge_pairs, <- list_fmap_compose. done. }
  pose proof (merge_total_genes gene_counts_df filtered_gene_counts_df)
    as Htotal.
  split.
  - intros p_values Hans. rewrite Htables in Hans.
    pose proof (iterrows_returns fisher_exact _ _ [] [] Htotal Hans) as Hloop.
    subst run. unfold statistical_test. rewrite Hloop. simpl.
    rewrite <- Htables. fold fisher_calls.
    assert (length (filter (λ c, is_multipletests c = true)
                      (fisher_calls
                       ++ [CallMultipletests p_values "fdr_bh"])%list)
            = 1%nat) as Hone.
    { rewrite filter_app, length_app, filter_cons. simpl.
      unfold fisher_calls. by rewrite fisher_calls_only. }
    destruct (multipletests p_values "fdr_bh") as [[reject adjusted]|e];
      simpl; split_and!; try done.
    eexists. split_and!; try done. simpl.
    rewrite merge_pairs, <- list_fmap_compose. done.
  - intros n t e p_values Hn Hans Hraise. rewrite Htables in Hn, Hans.
    pose proof (iterrows_raises fisher_exact _ _ _ _ _ [] [] Htotal Hn Hans
                  Hraise) as Hloop.
    subst run. unfold statistical_test. rewrite Hloop. simpl.
    rewrite <- Htables. fold fisher_calls. split; [done|].
    unfold fisher_calls. rewrite <- fmap_take. apply fisher_calls_only.
Qed.

Lemma enrichment_test_in_one_batch_witness :
  (let run := statistical_test Sample.fisher_checked Sample.bh_scaled
                               Sample.counts Sample.matched in
   run.2 = [ CallFisherExact ((120, 27182), (5, 35))%Z "two-sided";
             CallFisherExact ((0, 27302), (0, 12))%Z "two-sided";
             CallFisherExact ((55, 27247), (2, 5))%Z "two-sided";
             CallMultipletests [1 # 6; 1 # 1; 1 # 3]%Q "fdr_bh" ]
   ∧ ∃ r, run.1 = Ok r
          ∧ Compound <$> rows r = ["Raffinose"; "Sucrose"; "Alanine"]
          ∧ Fisher_Exact_p_value r = [1 # 6; 1 # 1; 1 # 3]%Q)
  ∧ statistical_test Sample.fisher_checked Sample.bh_scaled
                     Sample.counts_bad Sample.matched
    = (Raise ValueError,
       [ CallFisherExact ((55, 27247), (2, 5))%Z "two-sided";
         CallFisherExact ((120, 27182), (5, -2))%Z "two-sided" ]).
Proof.
  split.
  - destruct (enrichment_test_in_one_batch Sample.fisher_checked
                Sample.bh_scaled Sample.counts Sample.matched) as [Hall _].
    destruct (Hall [1 # 6; 1 # 1; 1 # 3]%Q) as (Hcalls & _ & r & Hr & Hc & Hp & _).
    + vm_compute.
      repeat (constructor; [eexists; reflexivity|]). constructor.
    + split; [exact Hcalls|]. exists r. by split_and!.
  - destruct (enrichment_test_in_one_batch Sample.fisher_checked
                Sample.bh_scaled Sample.counts_bad Sample.matched)
      as [_ Hstop].
    destruct (Hstop 1%nat ((120, 27182), (5, -2))%Z ValueError [1 # 3]%Q)
      as [Hrun _].
    + reflexivity.
    + vm_compute.
      repeat (constructor; [eexists; reflexivity|]). constructor.
    + reflexivity.
    + exact Hrun.
Defined.

(** The claim as stated fails: with an exact test that refuses a table
    with a negative cell, as the library does, there are counts for which
    no correction is made at all. *)
Lemma negative_cell_ends_the_test :
  ¬ (∀ gene_counts_df filtered_gene_counts_df,
       let run := statistical_test Sample.fisher_checked Sample.bh_scaled
                                   gene_counts_df filtered_gene_counts_df in
       is_ok run.1 = true
       ∧ length (filter (λ c, is_multipletests c = true) run.2) = 1%nat).
Proof.
  intros H. specialize (H Sample.counts_bad Sample.matched).
  vm_compute in H. destruct H as [H _]. discriminate.
Qed.

(** The sample counts: the rows follow the left table, a missing number
    counts as zero, and the correction sees the three p-values at once;
    on the counts with more matched genes than mQTL genes the second
    table has a negative cell, the third compound is never tested and
    the correction is not called. *)
Example enrichment_test_sample :
  statistical_test Sample.fisher_checked Sample.bh_scaled
                   Sample.counts Sample.matched
  = (Ok {| rows := [ mk_merged "Raffinose" 40 120 5 27302;
                     mk_merged "Sucrose" 12 0 0 27302;
                     mk_merged "Alanine" 7 55 2 27302 ];
           Fisher_Exact_p_value := [1 # 6; 1 # 1; 1 # 3]%Q;
           Adj_p_value := [3 # 6; 3 # 1; 3 # 3]%Q |},
     [ CallFisherExact ((120, 27182), (5, 35))%Z "two-sided";
       CallFisherExact ((0, 27302), (0, 12))%Z "two-sided";
       CallFisherExact ((55, 27247), (2, 5))%Z "two-sided";
       CallMultipletests [1 # 6; 1 # 1; 1 # 3]%Q "fdr_bh" ])
  ∧ (statistical_test Sample.fisher_checked Sample.bh_scaled
                      Sample.counts_bad Sample.matched).1
    = Raise ValueError
  ∧ filter (λ c, is_multipletests c = true)
           (statistical_test Sample.fisher_checked Sample.bh_scaled
                             Sample.counts_bad Sample.matched).2 = [].
Proof. vm_compute. split_and!; reflexivity. Qed.

End StatTestFacts.

(** ** More on the region query *)
Module GenesInRegionMore.

Import GenesInRegion GenesInRegionFacts.

(** A row determines its entry. *)
Lemma describes_functional columns g1 g2 :
  describes columns g1 → describes columns g2 → g1 = g2.
Proof.
  intros (Hc1 & Hb1 & a1 & i1 & Ha1 & Hi1 & Hg1 & Hn1)
         (Hc2 & Hb2 & a2 & i2 & Ha2 & Hi2 & Hg2 & Hn2).
  destruct g1, g2. simpl in *.
  rewrite Hb1 in Hb2. injection Hb2 as -> ->.
  rewrite Ha1 in Ha2. injection Ha2 as <-.
  rewrite Hi1 in Hi2. injection Hi2 as <-.
  by subst.
Qed.

(** Every entry of a query lies on the queried chromosome, carries an id
    with the organism prefix and has a boundary inside the window. *)
Theorem genes_in_region_entries file self chromosome sp ep genes :
  (genes_in_region file self chromosome sp ep).2 = Ok genes →
  Forall (λ g, chr g = "Chr" +:+ str_of_int chromosome
               ∧ startswith "ath:" (gene_id g) = true
               ∧ ((sp ≤ start g ≤ ep)%Z ∨ (sp ≤ end_ g ≤ ep)%Z)) genes.
Proof.
  intros Hq. apply genes_in_region_sound in Hq as [Hsel _].
  apply Forall_forall. intros g Hg.
  apply list_elem_of_lookup in Hg as [i Hi].
  destruct (Forall2_lookup_r _ _ _ _ _ Hsel Hi) as (columns & Hc & Hd).
  apply list_elem_of_lookup_2 in Hc.
  unfold spec_selection in Hc. apply list_elem_of_filter in Hc as [Hhit _].
  unfold region_hit in Hhit. apply andb_true_iff in Hhit as [Hrow Hin].
  destruct Hd as (Hchr & Hb & attributes & id & _ & _ & Hid & _).
  split_and!.
  - rewrite Hchr. unfold is_gene_row in Hrow.
    apply andb_true_iff in Hrow as [_ Hrow]. by apply String.eqb_eq in Hrow.
  - rewrite Hid. by destruct id.
  - unfold boundary_inside in Hin. rewrite Hb in Hin. unfold between in Hin.
    lia.
Qed.

Lemma genes_in_region_entries_witness :
  Forall (λ g, chr g = "Chr" +:+ str_of_int 3
               ∧ startswith "ath:" (gene_id g) = true
               ∧ ((50000 ≤ start g ≤ 150000)%Z ∨ (50000 ≤ end_ g ≤ 150000)%Z))
         [ mk_gene_info "ath:AT3G01010" (Some "GA") "Chr3" 40000 60000;
           mk_gene_info "ath:AT3G01020" None "Chr3" 60001 260000;
           mk_gene_info "ath:AT3G01040" None "Chr3" 150000 150500 ].
Proof.
  apply (genes_in_region_entries Sample.gff init 3 50000 150000).
  vm_compute. reflexivity.
Defined.

(** Selection is monotone in the window. *)
Lemma region_hit_widen chromosome sp ep sp' ep' columns :
  (sp' ≤ sp)%Z → (ep ≤ ep')%Z →
  region_hit chromosome sp ep columns = true →
  region_hit chromosome sp' ep' columns = true.
Proof.
  unfold region_hit, boundary_inside, between. intros Hs He.
  destruct (is_gene_row chromosome columns); [|done]. simpl.
  destruct (bounds_of columns) as [[s e]|]; [|done]. lia.
Qed.

(** Widening the window never loses a gene: when both queries return,
    every entry of the narrow query is an entry of the wide one. *)
Theorem genes_in_region_widen file self chromosome sp ep sp' ep' narrow wide :
  (sp' ≤ sp)%Z → (ep ≤ ep')%Z →
  (genes_in_region file self chromosome sp ep).2 = Ok narrow →
  (genes_in_region file self chromosome sp' ep').2 = Ok wide →
  narrow ⊆ wide.
Proof.
  intros Hs He [Hn _]%genes_in_region_sound [Hw _]%genes_in_region_sound.
  intros g Hg. apply list_elem_of_lookup in Hg as [i Hi].
  destruct (Forall2_lookup_r _ _ _ _ _ Hn Hi) as (columns & Hc & Hd).
  apply list_elem_of_lookup_2 in Hc.
  unfold spec_selection in Hc. apply list_elem_of_filter in Hc as [Hhit Hrow].
  assert (columns ∈ spec_selection ("Chr" +:+ str_of_int chromosome) sp' ep'
                      (rows_seen file self)) as Hc'.
  { apply list_elem_of_filter. split; [|done]. by eapply region_hit_widen. }
  apply list_elem_of_lookup in Hc' as [j Hj].
  destruct (Forall2_lookup_l _ _ _ _ _ Hw Hj) as (g' & Hg' & Hd').
  rewrite (describes_functional columns g g' Hd Hd').
  by eapply list_elem_of_lookup_2.
Qed.

Lemma genes_in_region_widen_witness :
  [ mk_gene_info "ath:AT3G01020" None "Chr3" 60001 260000 ]
  ⊆ [ mk_gene_info "ath:AT3G01010" (Some "GA") "Chr3" 40000 60000;
      mk_gene_info "ath:AT3G01020" None "Chr3" 60001 260000;
      mk_gene_info "ath:AT3G01040" None "Chr3" 150000 150500 ].
Proof.
  apply (genes_in_region_widen Sample.gff init 3 60001 70000 50000 150000).
  - lia.
  - lia.
  - vm_compute. reflexivity.
  - vm_compute. reflexivity.
Defined.

(** Once an object has read a file with at least one data line, its later
    queries do not look at the file again: whatever file they are given,
    they answer like a fresh object on the file read first, and leave the
    object as it is. *)
Theorem genes_in_region_reuses_cache file self' genes0 c0 s0 e0
    file' chromosome sp ep :
  genes_in_region file init c0 s0 e0 = (self', Ok genes0) →
  rows_of_file file ≠ [] →
  genes_in_region file' self' chromosome sp ep
  = (self', (genes_in_region file init chromosome sp ep).2).
Proof.
  intros Hfirst Hrows.
  assert (GFF_file self' = rows_of_file file) as Hcache.
  { unfold genes_in_region in Hfirst. simpl in Hfirst.
    destruct (read_gff _ _ _ _ _ _) as [cache r] eqn:Hr.
    injection Hfirst as <- ->. by apply read_gff_cache in Hr. }
  rewrite (genes_in_region_result file init).
  unfold genes_in_region at 1, rows_seen. simpl. rewrite Hcache.
  destruct (rows_of_file file) as [|row rows] eqn:Hf; [done|].
  reflexivity.
Qed.

Lemma genes_in_region_reuses_cache_witness :
  let self' := (genes_in_region Sample.gff init 1 0 10).1 in
  genes_in_region [] self' 3 50000 150000
  = (self', (genes_in_region Sample.gff init 3 50000 150000).2).
Proof.
  intros self'.
  apply (genes_in_region_reuses_cache Sample.gff self' [] 1 0 10 [] 3
           50000 150000).
  - vm_compute. reflexivity.
  - vm_compute. discriminate.
Defined.




(** On the sample: the gene after the row without an id is found by a
    fresh object on a window that avoids the bad row, and missed by the
    object that raised. *)
Example truncated_cache_sample :
  (genes_in_region Sample.gff_no_id init 3 90000 95000).2
  = Ok [mk_gene_info "ath:AT3G01050" None "Chr3" 90000 95000]
  ∧ (genes_in_region Sample.gff_no_id
       (genes_in_region Sample.gff_no_id init 3 50000 150000).1
       3 90000 95000).2 = Ok [].
Proof. vm_compute. split; reflexivity. Qed.

(** *** Reading back a written attribute column *)

Lemma append_cons c s t : String c s +:+ t = String c (s +:+ t).
Proof. reflexivity. Qed.

Lemma append_empty_r s : s +:+ "" = s.
Proof.
  induction s as [|c s IH]; [done|]. by rewrite append_cons, IH.
Qed.

Lemma length_append s t :
  String.length (s +:+ t) = (String.length s + String.length t)%nat.
Proof.
  induction s as [|c s IH]; [done|].
  rewrite append_cons. simpl. by rewrite IH.
Qed.

Lemma span_stop p s c rest :
  all_chars p s = true → p c = false →
  span p (s +:+ String c rest) = (s, String c rest).
Proof.
  intros Hs Hc. induction s as [|d s IH].
  - change ("" +:+ String c rest) with (String c rest). simpl. by rewrite Hc.
  - rewrite append_cons. simpl in *.
    apply andb_true_iff in Hs as [Hd Hs]. by rewrite Hd, (IH Hs).
Qed.

Lemma span_all p s : all_chars p s = true → span p s = (s, EmptyString).
Proof.
  induction s as [|d s IH]; simpl; [done|].
  intros [Hd Hs]%andb_true_iff. by rewrite Hd, (IH Hs).
Qed.

Lemma all_chars_weaken (p q : ascii → bool) s :
  (∀ c, p c = true → q c = true) → all_chars p s = true →
  all_chars q s = true.
Proof.
  intros Hpq. induction s as [|d s IH]; simpl; [done|].
  intros [Hd Hs]%andb_true_iff. by rewrite (Hpq _ Hd), (IH Hs).
Qed.

Lemma strip_char_plain v :
  all_chars not_dquote v = true → strip_char dquote v = v.
Proof.
  unfold strip_char. intros Hv.
  assert (∀ c, not_dquote c = true → Ascii.eqb dquote c = false) as Hq.
  { intros c Hc. unfold not_dquote in Hc. rewrite Ascii.eqb_sym.
    by apply negb_true_iff. }
  assert (lstrip_by (Ascii.eqb dquote) v = v) as ->.
  { destruct v as [|c v]; [done|]. cbn [all_chars lstrip_by] in *.
    apply andb_true_iff in Hv as [Hc _]. by rewrite (Hq c Hc). }
  induction v as [|c v IH]; [done|]. cbn [all_chars rstrip_by] in *.
  apply andb_true_iff in Hv as [Hc Hv]. rewrite (IH Hv), (Hq c Hc).
  by destruct v.
Qed.

(** One pair at the head of a text, followed by nothing or by a
    semicolon. *)
Lemma match_at_pair k v tail :
  plain_key k = true → plain_value v = true →
  tail = EmptyString ∨ (∃ t, tail = String ";" t) →
  match_at (k +:+ String "=" (v +:+ tail)) = Some (k, v, tail).
Proof.
  unfold plain_key, plain_value.
  intros [Hk1 Hk2]%andb_true_iff [Hv1 Hv2]%andb_true_iff Htail.
  unfold match_at.
  rewrite (span_stop _ _ _ _ Hk2) by done.
  destruct (is_empty k); [done|].
  destruct v as [|q v]; [done|]. cbn [all_chars] in Hv2.
  apply andb_true_iff in Hv2 as [Hq Hv2].
  apply andb_true_iff in Hq as [Hq1 Hq2].
  assert (span not_semi (String q v +:+ tail) = (String q v, tail)) as Hspan.
  { assert (all_chars not_semi (String q v) = true) as Hall.
    { cbn [all_chars]. rewrite Hq1. cbn [andb].
      eapply all_chars_weaken; [|exact Hv2].
      by intros c [? _]%andb_true_iff. }
    destruct Htail as [->|[t ->]].
    - rewrite append_empty_r. by apply span_all.
    - by apply span_stop. }
  rewrite append_cons in *.
  unfold not_dquote in Hq2. apply negb_true_iff in Hq2. rewrite Hq2.
  unfold match_plain. by rewrite Hspan.
Qed.

Lemma format_attributes_cons k v p rest :
  format_attributes ((k, v) :: p :: rest)
  = k +:+ String "=" (v +:+ String ";" (format_attributes (p :: rest))).
Proof. reflexivity. Qed.

Lemma finditer_format n pairs :
  Forall (λ kv, plain_key kv.1 = true ∧ plain_value kv.2 = true) pairs →
  (String.length (format_attributes pairs) ≤ n)%nat →
  finditer_fuel n (format_attributes pairs) = pairs.
Proof.
  intros Hpairs. revert n.
  induction Hpairs as [|[k v] rest [Hk Hv] _ IH]; intros n Hn.
  - by destruct n.
  - simpl in Hk, Hv. destruct rest as [|p rest].
    + change (format_attributes [(k, v)]) with (k +:+ String "=" v) in *.
      pose proof (match_at_pair k v EmptyString Hk Hv (or_introl eq_refl))
        as Hm.
      rewrite append_empty_r in Hm.
      destruct k as [|c k]; [done|].
      rewrite append_cons in *.
      destruct n as [|n]; [simpl in Hn; lia|].
      cbn [finditer_fuel]. rewrite Hm. by destruct n.
    + rewrite format_attributes_cons in *.
      pose proof (match_at_pair k v
                    (String ";" (format_attributes (p :: rest)))
                    Hk Hv (or_intror (ex_intro _ _ eq_refl))) as Hm.
      destruct k as [|c k]; [done|].
      rewrite append_cons in *.
      destruct n as [|n]; [simpl in Hn; lia|].
      cbn [String.length] in Hn.
      rewrite length_append in Hn. cbn [String.length] in Hn.
      rewrite length_append in Hn. cbn [String.length] in Hn.
      cbn [finditer_fuel]. rewrite Hm. f_equal.
      destruct n as [|n]; [lia|].
      cbn [finditer_fuel].
      assert (match_at (String ";" (format_attributes (p :: rest))) = None)
        as -> by reflexivity.
      apply IH. lia.
Qed.

(** The attribute column written from well-formed pairs is read back as
    these pairs, and the dict built from it holds, for every key, the
    value of the last pair with that key. *)
Theorem attributes_round_trip pairs :
  Forall (λ kv, plain_key kv.1 = true ∧ plain_value kv.2 = true) pairs →
  finditer (format_attributes pairs) = pairs
  ∧ attr_dict_of (format_attributes pairs) = list_to_map (reverse pairs).
Proof.
  intros Hpairs.
  assert (finditer (format_attributes pairs) = pairs) as Hfind
    by (by apply finditer_format).
  split; [done|]. unfold attr_dict_of. rewrite Hfind.
  assert (∀ (d : gmap string string),
            foldl (λ d kv, <[kv.1 := strip_char dquote kv.2]> d) d pairs
            = list_to_map (reverse pairs) ∪ d) as Hfold.
  { clear Hfind.
    induction Hpairs as [|[k v] rest [Hk Hv] _ IH]; intros d; simpl.
    - by rewrite (left_id_L ∅ (∪)).
    - rewrite IH, reverse_cons, list_to_map_app. simpl in *.
      rewrite strip_char_plain.
      2: { unfold plain_value in Hv. apply andb_true_iff in Hv as [_ Hv].
           eapply all_chars_weaken; [|exact Hv].
           by intros c [_ ?]%andb_true_iff. }
      rewrite <- (assoc_L (∪)). f_equal.
      by rewrite <- insert_union_l, (left_id_L ∅ (∪)). }
  rewrite Hfold. by rewrite (right_id_L ∅ (∪)).
Qed.

Lemma attributes_round_trip_witness :
  finditer (format_attributes [("ID", "AT1G01010"); ("Name", "NAC001")])
  = [("ID", "AT1G01010"); ("Name", "NAC001")]
  ∧ attr_dict_of (format_attributes [("ID", "AT1G01010"); ("Name", "NAC001")])
    = list_to_map (reverse [("ID", "AT1G01010"); ("Name", "NAC001")]).
Proof.
  apply (attributes_round_trip [("ID", "AT1G01010"); ("Name", "NAC001")]).
  repeat (constructor; [split; vm_compute; reflexivity|]). constructor.
Defined.

End GenesInRegionMore.

(** ** More on peak detection *)
Module QTLMore.

Import QTL QTLFacts.

(** Two neighbouring positions are never both local maxima: peaks are
    at least two markers apart. *)
Theorem local_maxima_not_adjacent data i :
  i ∈ find_local_maxima data → S i ∉ find_local_maxima data.
Proof.
  rewrite !elem_of_find_local_maxima. unfold local_maximum.
  intros (_ & _ & Hr) (_ & Hl & _).
  replace (S i - 1)%nat with i in Hl by lia.
  replace (i + 1)%nat with (S i) in Hr by lia.
  lra.
Qed.

Lemma local_maxima_not_adjacent_witness :
  4%nat ∉ find_local_maxima (values (abs_series Sample.lod_row)).
Proof.
  apply (local_maxima_not_adjacent (values (abs_series Sample.lod_row)) 3).
  apply (bool_decide_unpack _). vm_compute. exact I.
Defined.

(** What [iloc] returns when it returns. *)
Lemma iloc_ok {A} (l : list A) positions out :
  iloc l positions = Ok out →
  Forall2 (λ i a, l !! i = Some a) positions out.
Proof.
  revert out. induction positions as [|i positions IH]; intros out; simpl.
  - intros [= <-]. constructor.
  - unfold iloc in *. simpl. unfold_result. unfold index.
    destruct (l !! i) as [a|] eqn:Ha; [|done].
    destruct (foldr _ _ positions) as [rest|]; [|done].
    intros [= <-]. constructor; [done|by apply IH].
Qed.

(** [iloc] raises [IndexError] as soon as one position is out of
    range. *)
Lemma iloc_out_of_range {A} (l : list A) positions i :
  i ∈ positions → (length l ≤ i)%nat →
  iloc l positions = Raise IndexError.
Proof.
  intros Hi Hlen. induction Hi as [i positions|i j positions _ IH].
  - unfold iloc. simpl. unfold_result. unfold index.
    by rewrite lookup_ge_None_2.
  - unfold iloc in *. simpl. unfold_result. unfold index in *.
    rewrite IH by done. by destruct (l !! j).
Qed.

(** With a non-zero threshold the percentile plays no part: the results
    do not depend on how the quantile is computed. *)
Theorem given_threshold_ignores_quantile quantile1 quantile2 self trait t :
  ¬ (t == 0)%Q →
  get_peak quantile1 self trait (Some t) = get_peak quantile2 self trait (Some t)
  ∧ get_peak_local_max quantile1 self trait (Some t)
    = get_peak_local_max quantile2 self trait (Some t).
Proof.
  intros Ht. unfold get_peak, get_peak_local_max. simpl.
  assert (Qeq_bool t 0 = false) as ->; [|done].
  destruct (Qeq_bool t 0) eqn:E; [|done]. by apply Qeq_bool_iff in E.
Qed.

Lemma given_threshold_ignores_quantile_witness :
  get_peak quantile_linear Sample.study "trait_1" (Some 4%Q)
  = get_peak (λ _ _, 0%Q) Sample.study "trait_1" (Some 4%Q)
  ∧ get_peak_local_max quantile_linear Sample.study "trait_1" (Some 4%Q)
    = get_peak_local_max (λ _ _, 0%Q) Sample.study "trait_1" (Some 4%Q).
Proof.
  apply (given_threshold_ignores_quantile quantile_linear (λ _ _, 0%Q)
           Sample.study "trait_1" 4%Q).
  intros H. vm_compute in H. discriminate.
Defined.

Lemma item_values (s : list (string * Q)) i p :
  s !! i = Some p → item (values s) i = p.2.
Proof.
  intros H. unfold item, values. rewrite list_lookup_fmap.
  by destruct (s !! i); simplify_eq.
Qed.

(** Every local-maximum peak is also a peak of [get_peak]: for the same
    trait and threshold, the scores returned by [get_peak_local_max] are
    among those returned by [get_peak]. *)
Theorem local_max_peaks_among_peaks quantile self trait threshold
    peak_LOD peak_markers :
  get_peak_local_max quantile self trait threshold
  = Ok (Some peak_LOD, peak_markers) →
  ∃ all_LOD all_markers,
    get_peak quantile self trait threshold = (Some all_LOD, all_markers)
    ∧ peak_LOD ⊆ all_LOD.
Proof.
  unfold get_peak_local_max, get_peak.
  destruct (in_index trait self); [|done].
  destruct (loc trait self) as [row|]; [|done].
  fold (threshold_in_force quantile threshold (abs_series row)).
  set (th := threshold_in_force quantile threshold (abs_series row)).
  unfold_result.
  destruct (iloc (abs_series row) (peak_indices (abs_series row) th))
    as [lod|] eqn:Hlod; [|done].
  destruct (iloc (markers self) _) as [ms|]; [|done].
  intros [= <- <-]. eexists _, _. split; [reflexivity|].
  intros p Hp. apply iloc_ok in Hlod.
  apply list_elem_of_lookup in Hp as [k Hk].
  destruct (Forall2_lookup_r _ _ _ _ _ Hlod Hk) as (i & Hi & Hrow).
  apply list_elem_of_lookup_2 in Hi. apply peak_indices_spec in Hi as [_ Hth].
  rewrite (item_values _ _ _ Hrow) in Hth.
  apply list_elem_of_filter. split; [by apply geb_le|].
  by eapply list_elem_of_lookup_2.
Qed.

Lemma local_max_peaks_among_peaks_witness :
  ∃ all_LOD all_markers,
    get_peak quantile_linear Sample.study "trait_1" (Some 4%Q)
    = (Some all_LOD, all_markers)
    ∧ [("m2", 5%Q); ("m4", 9%Q); ("m6", 7%Q)] ⊆ all_LOD.
Proof.
  apply (local_max_peaks_among_peaks quantile_linear Sample.study "trait_1"
           (Some 4%Q) _
           (Some [mk_marker (CStr "m2") [CInt 1; CInt 60000];
                  mk_marker (CStr "m4") [CInt 1; CInt 200000];
                  mk_marker (CStr "m6") [CInt 1; CInt 400000]])).
  vm_compute. reflexivity.
Defined.

(** A marker table that is too short for a peak: when a peak position of
    the trait lies beyond the last row of the marker table,
    [get_peak_local_max] raises [IndexError]. *)
Theorem short_marker_table_raises quantile self trait threshold row i :
  loc trait self = Some row →
  i ∈ peak_indices (abs_series row)
        (threshold_in_force quantile threshold (abs_series row)) →
  (length (markers self) ≤ i)%nat →
  get_peak_local_max quantile self trait threshold = Raise IndexError.
Proof.
  intros Hloc Hi Hlen. unfold get_peak_local_max.
  assert (in_index trait self = true) as -> by (apply in_index_loc; eauto).
  rewrite Hloc.
  fold (threshold_in_force quantile threshold (abs_series row)).
  set (th := threshold_in_force quantile threshold (abs_series row)) in *.
  unfold_result.
  destruct (iloc_total (abs_series row) (peak_indices (abs_series row) th))
    as (lod & -> & _).
  { apply Forall_forall. intros j [[Hj _] _]%peak_indices_spec.
    unfold values, abs_series in *. rewrite !length_fmap in *. lia. }
  by rewrite (iloc_out_of_range _ _ i Hi Hlen).
Qed.

Lemma short_marker_table_raises_witness :
  get_peak_local_max quantile_linear
    (mk_study "short" [("trait_1", Sample.lod_row)]
              (take 3 Sample.marker_table))
    "trait_1" None
  = Raise IndexError.
Proof.
  apply (short_marker_table_raises quantile_linear
           (mk_study "short" [("trait_1", Sample.lod_row)]
                     (take 3 Sample.marker_table))
           "trait_1" None Sample.lod_row 3).
  - reflexivity.
  - apply (bool_decide_unpack _). vm_compute. exact I.
  - vm_compute. lia.
Defined.



End QTLMore.

(** ** More on the remote lookups *)
Module KeggMore.

Import Kegg KeggFacts.

Lemma fetch_count_snoc_fetch tr url :
  fetch_count (tr ++ [Fetch url]) = S (fetch_count tr).
Proof. rewrite fetch_count_app. unfold fetch_count. simpl. lia. Qed.

(** The loop of [get_response] when the first [j] answers fail and the
    next one succeeds, with [j] below the number of tries. *)
Lemma get_response_loop_succeeds net remaining url tr j :
  (j < remaining)%nat →
  (∀ k, (k < j)%nat → status_code (net (fetch_count tr + k)%nat url) ≠ 200%Z) →
  status_code (net (fetch_count tr + j)%nat url) = 200%Z →
  ∃ tr',
    get_response_loop net remaining url tr
    = (Ok (Some (net (fetch_count tr + j)%nat url)), (tr ++ tr')%list)
    ∧ fetch_count tr' = S j
    ∧ filter (λ e, is_sleep e = true) tr' = replicate j (Sleep 1).
Proof.
  revert remaining tr.
  induction j as [|j IH]; intros remaining tr Hj Hfail Hok.
  - destruct remaining as [|remaining]; [lia|]. simpl.
    unfold_io. unfold requests_get.
    rewrite Nat.add_0_r in Hok. rewrite Hok. simpl.
    rewrite Nat.add_0_r. exists [Fetch url]. by split_and!.
  - destruct remaining as [|remaining]; [lia|]. simpl.
    unfold_io. unfold requests_get.
    pose proof (Hfail 0%nat ltac:(lia)) as H0. rewrite Nat.add_0_r in H0.
    apply Z.eqb_neq in H0. rewrite H0.
    match goal with
    | |- context [get_response_loop net remaining url ?t] =>
        assert (fetch_count t = S (fetch_count tr)) as Hfc
          by (rewrite !fetch_count_app; unfold fetch_count; simpl; lia);
        destruct (IH remaining t) as (tr' & Hrun & Hcount & Hsleep)
    end.
    + lia.
    + intros k Hk. rewrite Hfc.
      replace (S (fetch_count tr) + k)%nat with (fetch_count tr + S k)%nat
        by lia.
      apply Hfail. lia.
    + rewrite Hfc.
      replace (S (fetch_count tr) + j)%nat with (fetch_count tr + S j)%nat
        by lia.
      exact Hok.
    + rewrite Hrun, Hfc.
      replace (S (fetch_count tr) + j)%nat with (fetch_count tr + S j)%nat
        by lia.
      eexists. split; [by rewrite <- !app_assoc|]. split.
      * rewrite !fetch_count_app, Hcount. reflexivity.
      * rewrite !filter_app, Hsleep. reflexivity.
Qed.

(** [get_response] retries after a failure: when the first [j] answers
    fail and the next one succeeds, for [j] at most 2, it returns that
    answer after [j + 1] requests and [j] pauses of one second. *)
Theorem get_response_succeeds_after net url tr j :
  (j < 3)%nat →
  (∀ k, (k < j)%nat → status_code (net (fetch_count tr + k)%nat url) ≠ 200%Z) →
  status_code (net (fetch_count tr + j)%nat url) = 200%Z →
  ∃ tr',
    get_response net url tr
    = (Ok (Some (net (fetch_count tr + j)%nat url)), (tr ++ tr')%list)
    ∧ fetch_count tr' = S j
    ∧ filter (λ e, is_sleep e = true) tr' = replicate j (Sleep 1).
Proof.
  intros Hj Hfail Hok. unfold get_response. simpl Nat.sub.
  by apply get_response_loop_succeeds.
Qed.

Lemma get_response_succeeds_after_witness :
  ∃ tr',
    get_response Sample.net_flaky
                 "http://rest.kegg.jp/link/pathway/cpd:C00492" []
    = (Ok (Some (Sample.net_flaky (fetch_count [] + 2)%nat
                   "http://rest.kegg.jp/link/pathway/cpd:C00492")),
       ([] ++ tr')%list)
    ∧ fetch_count tr' = 3%nat
    ∧ filter (λ e, is_sleep e = true) tr' = replicate 2 (Sleep 1).
Proof.
  apply (get_response_succeeds_after Sample.net_flaky
           "http://rest.kegg.jp/link/pathway/cpd:C00492" [] 2).
  - lia.
  - intros k Hk. destruct k as [|[|k]]; [vm_compute; discriminate..|lia].
  - vm_compute. reflexivity.
Defined.

(** Against an address that never answers with success, [get_response]
    sends exactly three requests, each followed by a message and a pause
    of one second, and returns [None]. *)
Theorem get_response_gives_up_after_three net url tr :
  always_fails net url →
  ∃ m1 m2 m3,
    get_response net url tr
    = (Ok None,
       (tr ++ [Fetch url; Print m1; Sleep 1;
               Fetch url; Print m2; Sleep 1;
               Fetch url; Print m3; Sleep 1])%list).
Proof.
  intros Hnet. unfold get_response. simpl Nat.sub.
  destruct (get_response_loop_fails net 3 url tr Hnet)
    as (messages & Hlen & ->).
  destruct messages as [|m1 [|m2 [|m3 [|? ?]]]]; try done.
  by exists m1, m2, m3.
Qed.

Lemma get_response_gives_up_after_three_witness :
  ∃ m1 m2 m3,
    get_response Sample.net_down "u" []
    = (Ok None,
       ([] ++ [Fetch "u"; Print m1; Sleep 1;
               Fetch "u"; Print m2; Sleep 1;
               Fetch "u"; Print m3; Sleep 1])%list).
Proof.
  apply (get_response_gives_up_after_three Sample.net_down "u" []).
  intros n. vm_compute. discriminate.
Defined.

(** The retry loop of Pathways.py when the next [j] answers fail and the
    one after succeeds, with [j] below the tries left. *)
Lemma retry_while_succeeds net remaining url response tr j :
  (j < remaining)%nat →
  status_code response ≠ 200%Z →
  (∀ k, (k < j)%nat → status_code (net (fetch_count tr + k)%nat url) ≠ 200%Z) →
  status_code (net (fetch_count tr + j)%nat url) = 200%Z →
  retry_while net remaining url response tr
  = (Ok (net (fetch_count tr + j)%nat url),
     (tr ++ replicate (S j) (Fetch url))%list).
Proof.
  revert remaining response tr.
  induction j as [|j IH]; intros remaining response tr Hj Hresp Hfail Hok.
  - destruct remaining as [|remaining]; [lia|]. simpl.
    apply Z.eqb_neq in Hresp. rewrite Hresp. simpl.
    unfold_io. unfold requests_get. rewrite Nat.add_0_r in *.
    destruct remaining; simpl; [done|]. by rewrite Hok.
  - destruct remaining as [|remaining]; [lia|]. simpl retry_while.
    apply Z.eqb_neq in Hresp. rewrite Hresp. cbn [negb].
    unfold_io. unfold requests_get.
    rewrite (IH remaining (net (fetch_count tr) url) (tr ++ [Fetch url])%list).
    + rewrite fetch_count_snoc_fetch, <- app_assoc.
      by replace (S (fetch_count tr) + j)%nat with (fetch_count tr + S j)%nat
        by lia.
    + lia.
    + specialize (Hfail 0%nat ltac:(lia)). by rewrite Nat.add_0_r in Hfail.
    + intros k Hk. rewrite fetch_count_snoc_fetch.
      replace (S (fetch_count tr) + k)%nat with (fetch_count tr + S k)%nat
        by lia.
      apply Hfail. lia.
    + rewrite fetch_count_snoc_fetch.
      by replace (S (fetch_count tr) + j)%nat with (fetch_count tr + S j)%nat
        by lia.
Qed.

(** The request of [get_kegg_pathways] is repeated until it succeeds, at
    most three times: when the first [j] answers fail and the next one
    succeeds, for [j] at most 3, the answer is returned after exactly
    [j + 1] requests, and nothing else happens in between. *)
Theorem get_retrying_succeeds_after net url tr j :
  (j ≤ 3)%nat →
  (∀ k, (k < j)%nat → status_code (net (fetch_count tr + k)%nat url) ≠ 200%Z) →
  status_code (net (fetch_count tr + j)%nat url) = 200%Z →
  get_retrying net url tr
  = (Ok (net (fetch_count tr + j)%nat url),
     (tr ++ replicate (S j) (Fetch url))%list).
Proof.
  intros Hj Hfail Hok. destruct j as [|j].
  - rewrite Nat.add_0_r in *. by apply get_retrying_succeeds.
  - unfold get_retrying. unfold_io. unfold requests_get.
    pose proof (Hfail 0%nat ltac:(lia)) as H0. rewrite Nat.add_0_r in H0.
    apply Z.eqb_neq in H0 as Hb. rewrite Hb. cbn [negb].
    rewrite (retry_while_succeeds net 3 url _ _ j).
    + rewrite fetch_count_snoc_fetch, <- app_assoc.
      by replace (S (fetch_count tr) + j)%nat with (fetch_count tr + S j)%nat
        by lia.
    + lia.
    + done.
    + intros k Hk. rewrite fetch_count_snoc_fetch.
      replace (S (fetch_count tr) + k)%nat with (fetch_count tr + S k)%nat
        by lia.
      apply Hfail. lia.
    + rewrite fetch_count_snoc_fetch.
      by replace (S (fetch_count tr) + j)%nat with (fetch_count tr + S j)%nat
        by lia.
Qed.

Lemma get_retrying_succeeds_after_witness :
  get_retrying Sample.net_flaky "http://rest.kegg.jp/find/compound/Raffinose"
               []
  = (Ok (Sample.net_flaky (fetch_count [] + 2)%nat
           "http://rest.kegg.jp/find/compound/Raffinose"),
     ([] ++ replicate 3
              (Fetch "http://rest.kegg.jp/find/compound/Raffinose"))%list).
Proof.
  apply (get_retrying_succeeds_after Sample.net_flaky
           "http://rest.kegg.jp/find/compound/Raffinose" [] 2).
  - lia.
  - intros k Hk. destruct k as [|[|k]]; [vm_compute; discriminate..|lia].
  - vm_compute. reflexivity.
Defined.

Lemma split_nonempty sep s : split sep s ≠ [].
Proof.
  destruct s as [|c s]; [done|]. simpl.
  destruct (Ascii.eqb c sep); [done|]. by destruct (split sep s).
Qed.

(** A search that is answered at once hands its lines to the loop. *)
Lemma get_kegg_pathways_answered net re_compile compound_name pattern tr :
  status_code (net (fetch_count tr) (search_url compound_name)) = 200%Z →
  re_compile (pattern_source compound_name) = Some pattern →
  let lines :=
    split newline
          (strip (text (net (fetch_count tr) (search_url compound_name)))) in
  get_kegg_pathways net re_compile compound_name tr
  = lines_loop net pattern lines lines []
               (tr ++ [Fetch (search_url compound_name)])%list.
Proof.
  intros Hok Hre lines. unfold get_kegg_pathways. unfold_io.
  fold (search_url compound_name).
  rewrite (get_retrying_succeeds net _ tr Hok), Hok. simpl.
  fold lines. rewrite bool_decide_false by apply split_nonempty.
  by rewrite Hre.
Qed.

(** A malformed search result: when the search is answered at once and
    the first line of the answer does not consist of exactly two
    tab-separated fields, as for an empty body, [get_kegg_pathways]
    raises [ValueError] after its single request. *)
Theorem malformed_search_line_raises net re_compile compound_name pattern tr :
  status_code (net (fetch_count tr) (search_url compound_name)) = 200%Z →
  re_compile (pattern_source compound_name) = Some pattern →
  length (split tab
            (default ""
               (head (split newline
                        (strip (text (net (fetch_count tr)
                                          (search_url compound_name))))))))
  ≠ 2%nat →
  get_kegg_pathways net re_compile compound_name tr
  = (Raise ValueError, (tr ++ [Fetch (search_url compound_name)])%list).
Proof.
  intros Hok Hre Hlen.
  rewrite (get_kegg_pathways_answered _ _ _ pattern) by done.
  destruct (split newline _) as [|line rest] eqn:Hl;
    [by apply split_nonempty in Hl|].
  simpl in *.
  by destruct (split tab line) as [|a [|b [|c l]]].
Qed.

Lemma malformed_search_line_raises_witness :
  get_kegg_pathways (λ _ _, Sample.ok "") Sample.literal_engine "Unobtainium" []
  = (Raise ValueError, ([] ++ [Fetch (search_url "Unobtainium")])%list).
Proof.
  apply (malformed_search_line_raises (λ _ _, Sample.ok "")
           Sample.literal_engine "Unobtainium" (Sample.occurs "Unobtainium") []).
  - reflexivity.
  - reflexivity.
  - vm_compute. discriminate.
Defined.

Lemma lines_loop_no_match net pattern lines todo pathways tr :
  Forall (λ line, ∃ compound_id compound_names,
            split tab line = [compound_id; compound_names]
            ∧ pattern compound_names = false) todo →
  lines_loop net pattern lines todo pathways tr
  = (Ok (PathwaySet (list_to_set pathways)), tr).
Proof.
  induction 1 as [|line todo (a & b & Hs & Hp) _ IH]; simpl; [done|].
  by rewrite Hs, Hp.
Qed.

(** A search without a hit: when the search is answered at once and no
    line of the answer carries the name, [get_kegg_pathways] returns the
    empty set after that single request; the round loop takes the empty
    set for a failure and puts the compound into the retry set. *)
Theorem unmatched_compound_is_retried net re_compile compound_name pattern
    path_dict failed tr :
  status_code (net (fetch_count tr) (search_url compound_name)) = 200%Z →
  re_compile (pattern_source compound_name) = Some pattern →
  Forall (λ line, ∃ compound_id compound_names,
            split tab line = [compound_id; compound_names]
            ∧ pattern compound_names = false)
         (split newline
            (strip (text (net (fetch_count tr) (search_url compound_name))))) →
  get_kegg_pathways net re_compile compound_name tr
  = (Ok (PathwaySet ∅), (tr ++ [Fetch (search_url compound_name)])%list)
  ∧ process_compounds net re_compile [compound_name] path_dict failed tr
    = (Ok (path_dict, failed ∪ {[compound_name]}),
       (tr ++ [Fetch (search_url compound_name);
               PrintFailed (failed ∪ {[compound_name]})])%list).
Proof.
  intros Hok Hre Hlines.
  assert (get_kegg_pathways net re_compile compound_name tr
          = (Ok (PathwaySet ∅),
             (tr ++ [Fetch (search_url compound_name)])%list)) as Hget.
  { rewrite (get_kegg_pathways_answered _ _ _ pattern) by done.
    by rewrite lines_loop_no_match. }
  split; [done|]. simpl. unfold_io. rewrite Hget. simpl.
  rewrite bool_decide_true by done. simpl. by rewrite <- app_assoc.
Qed.

Lemma unmatched_compound_is_retried_witness :
  let net (n : nat) (url : string) :=
    Sample.ok (Sample.tsv ["cpd:C00208"; "Maltose; Malt sugar"]) in
  get_kegg_pathways net Sample.literal_engine "Raffinose" []
  = (Ok (PathwaySet ∅), ([] ++ [Fetch (search_url "Raffinose")])%list)
  ∧ process_compounds net Sample.literal_engine ["Raffinose"] ∅ ∅ []
    = (Ok (∅, ∅ ∪ {["Raffinose"]}),
       ([] ++ [Fetch (search_url "Raffinose");
               PrintFailed (∅ ∪ {["Raffinose"]})])%list).
Proof.
  intros net.
  apply (unmatched_compound_is_retried net Sample.literal_engine "Raffinose"
           (Sample.occurs "Raffinose") ∅ ∅ []).
  - reflexivity.
  - reflexivity.
  - vm_compute (split _ _).
    constructor; [|constructor].
    eexists _, _. split; [vm_compute; reflexivity|vm_compute; reflexivity].
Defined.

(** *** The round loop ends *)

(** What one round does to the variables of the loop. *)
Lemma round_step net re_compile traits st tr st' tr' :
  round net re_compile traits st tr = (Ok st', tr') →
  let todo := if run_for_all_traits st then traits else failed_compounds st in
  run_for_all_traits st' = false
  ∧ failed_compounds st' ⊆ todo
  ∧ ((consecutive_failures st' = (consecutive_failures st + 1)%Z
      ∧ failed_compounds st' = todo)
     ∨ (consecutive_failures st' = 0%Z ∧ failed_compounds st' ≠ todo)).
Proof.
  intros Hround todo. unfold round in Hround. fold todo in Hround.
  unfold_io.
  destruct (process_compounds net re_compile (elements todo) (path_dict st) ∅ tr)
    as [[out|e] tr1] eqn:Hp; [|done].
  injection Hround as <- _. simpl.
  apply process_compounds_failed_bound in Hp.
  rewrite list_to_set_elements_L, (left_id_L ∅ (∪)) in Hp.
  split_and!; [done..|].
  destruct (decide (out.2 = todo)) as [Heq|Hne].
  - left. by rewrite bool_decide_true.
  - right. by rewrite bool_decide_false.
Qed.

(** Fuel that covers four rounds per compound left to retry, plus the
    rounds left to the counter, is never used up. *)
Lemma round_loop_enough net re_compile traits fuel st tr :
  run_for_all_traits st = false →
  (0 ≤ consecutive_failures st ≤ 4)%Z →
  (4 * size (failed_compounds st) + Z.to_nat (4 - consecutive_failures st)
   ≤ fuel)%nat →
  (round_loop net re_compile fuel traits st tr).1 ≠ Ok None.
Proof.
  revert st tr. induction fuel as [|fuel IH]; intros st tr Hrun Hcf Hfuel.
  - simpl. destruct (consecutive_failures st <=? 3)%Z eqn:E; [|done].
    apply Z.leb_le in E. lia.
  - simpl. destruct (consecutive_failures st <=? 3)%Z eqn:E; [|done].
    apply Z.leb_le in E. unfold_io.
    destruct (round net re_compile traits st tr) as [[st'|e] tr'] eqn:Hround;
      [|done].
    apply round_step in Hround as (Hrun' & Hsub & Hcase). rewrite Hrun in *.
    apply IH; [done| |].
    + destruct Hcase as [[-> _]|[-> _]]; lia.
    + destruct Hcase as [[-> ->]|[-> Hne]]; [lia|].
      assert (size (failed_compounds st') < size (failed_compounds st))%nat;
        [|lia].
      destruct (decide (size (failed_compounds st)
                        ≤ size (failed_compounds st'))%nat) as [Hle|]; [|lia].
      destruct Hne. by apply set_subseteq_size_eq.
Qed.

Lemma round_loop_unfold net re_compile traits fuel st :
  round_loop net re_compile (S fuel) traits st
  = if (consecutive_failures st <=? 3)%Z
    then st' ← round net re_compile traits st;
         round_loop net re_compile fuel traits st'
    else mret (Some st).
Proof. reflexivity. Qed.

(** More fuel does not change a run that ended. *)
Lemma round_loop_more_fuel net re_compile traits fuel st tr :
  (round_loop net re_compile fuel traits st tr).1 ≠ Ok None →
  round_loop net re_compile (S fuel) traits st tr
  = round_loop net re_compile fuel traits st tr.
Proof.
  revert st tr. induction fuel as [|fuel IH]; intros st tr.
  - simpl. by destruct (consecutive_failures st <=? 3)%Z.
  - rewrite (round_loop_unfold _ _ _ (S fuel)), (round_loop_unfold _ _ _ fuel).
    destruct (consecutive_failures st <=? 3)%Z; [|done].
    unfold_io.
    destruct (round net re_compile traits st tr) as [[st'|e] tr']; [|done].
    apply IH.
Qed.

(** The script body terminates: with fuel for four rounds per distinct
    compound and five more, the model of the loop never runs out of
    fuel, for any service, and more fuel gives the same run. *)
Theorem main_terminates net re_compile fuel trait_column tr :
  (4 * size (list_to_set trait_column : gset string) + 5 ≤ fuel)%nat →
  (main net re_compile fuel trait_column tr).1 ≠ Ok None
  ∧ main net re_compile (S fuel) trait_column tr
    = main net re_compile fuel trait_column tr.
Proof.
  intros Hfuel.
  set (st0 := {| path_dict := ∅; failed_compounds := ∅;
                 consecutive_failures := 0; run_for_all_traits := true |}).
  assert (∀ t, (round_loop net re_compile fuel (list_to_set trait_column)
                           st0 t).1 ≠ Ok None) as Hloop.
  { intros t. destruct fuel as [|fuel]; [lia|]. simpl. unfold_io.
    destruct (round net re_compile (list_to_set trait_column) st0 t)
      as [[st'|e] tr'] eqn:Hround; [|done].
    apply round_step in Hround as (Hrun' & Hsub & Hcase). simpl in *.
    apply round_loop_enough; [done| |].
    - destruct Hcase as [[-> _]|[-> _]]; lia.
    - apply subseteq_size in Hsub.
      destruct Hcase as [[-> _]|[-> _]]; lia. }
  split.
  - unfold main. fold st0. unfold_io.
    specialize (Hloop (tr ++ [AppendJson ∅])%list).
    destruct (round_loop _ _ _ _ _ _) as [[[st|]|e] tr']; done.
  - unfold main. fold st0. unfold_io.
    by rewrite round_loop_more_fuel.
Qed.

Lemma main_terminates_witness :
  (main Sample.net_partial Sample.literal_engine 13
        ["Raffinose"; "Unobtainium"] []).1 ≠ Ok None
  ∧ main Sample.net_partial Sample.literal_engine 14
         ["Raffinose"; "Unobtainium"] []
    = main Sample.net_partial Sample.literal_engine 13
           ["Raffinose"; "Unobtainium"] [].
Proof.
  apply (main_terminates Sample.net_partial Sample.literal_engine 13
           ["Raffinose"; "Unobtainium"] []).
  vm_compute. lia.
Defined.

End KeggMore.
